(** * esp-idf-mirf, mqtt bridge: [mqtt/main/main.c]

    A shallow embedding of the station attach logic ([event_handler],
    [wifi_init_sta]), of the mDNS host rewriting ([query_mdns_host],
    [convert_mdns_host]) and of the main loops of the two radio tasks
    ([receiver], [sender]), followed by the properties established for them.

    Conventions.
    - [esp_err_t], [int], [EventBits_t] and the event identifiers are [Z].
    - A C string is the [string] of the characters before its terminator;
      a [uint8_t] array is a [list byte].
    - A call that writes or reads past the end of an array has no defined
      result: the embedding returns [None] (or [Fault]) there.
    - [ESP_LOGx] calls are kept as entries (level, format) of a log. *)

From Stdlib Require Import ZArith List String Ascii Bool Arith Lia.
From Stdlib Require Import Strings.Byte Numbers.DecimalString.
Import ListNotations.

(** ** Common ESP-IDF declarations *)

Definition esp_err_t := Z.

Definition ESP_OK : esp_err_t := 0%Z.
Definition ESP_FAIL : esp_err_t := (-1)%Z.
Definition ESP_ERR_NOT_FOUND : esp_err_t := 261%Z.   (* 0x105 *)
Definition ESP_ERR_TIMEOUT : esp_err_t := 263%Z.     (* 0x107 *)

Inductive esp_log_level_t : Type :=
| ESP_LOG_ERROR
| ESP_LOG_WARN
| ESP_LOG_INFO
| ESP_LOG_DEBUG.

Definition log_entry : Type := (esp_log_level_t * string)%type.

Definition esp_log_level_eqb (a b : esp_log_level_t) : bool :=
  match a, b with
  | ESP_LOG_ERROR, ESP_LOG_ERROR => true
  | ESP_LOG_WARN, ESP_LOG_WARN => true
  | ESP_LOG_INFO, ESP_LOG_INFO => true
  | ESP_LOG_DEBUG, ESP_LOG_DEBUG => true
  | _, _ => false
  end.

(** ** Station attach: [event_handler] and [wifi_init_sta] *)

Module Wifi.

Local Open Scope Z_scope.

Inductive esp_event_base_t : Type :=
| WIFI_EVENT
| IP_EVENT.

Definition esp_event_base_eqb (a b : esp_event_base_t) : bool :=
  match a, b with
  | WIFI_EVENT, WIFI_EVENT => true
  | IP_EVENT, IP_EVENT => true
  | _, _ => false
  end.

(* wifi_event_t and ip_event_t of ESP-IDF *)
Definition WIFI_EVENT_STA_START : Z := 2.
Definition WIFI_EVENT_STA_DISCONNECTED : Z := 5.
Definition IP_EVENT_STA_GOT_IP : Z := 0.

Record event : Type := mkEvent {
  event_base : esp_event_base_t;
  event_id : Z
}.

Definition ev_start : event := mkEvent WIFI_EVENT WIFI_EVENT_STA_START.
Definition ev_disconnected : event := mkEvent WIFI_EVENT WIFI_EVENT_STA_DISCONNECTED.
Definition ev_got_ip : event := mkEvent IP_EVENT IP_EVENT_STA_GOT_IP.

Definition BIT0 : Z := 1.
Definition BIT1 : Z := 2.
Definition WIFI_CONNECTED_BIT : Z := BIT0.
Definition WIFI_FAIL_BIT : Z := BIT1.

(** The globals [s_retry_num] and [s_wifi_event_group], the number of
    [esp_wifi_connect] calls issued so far, and the log. *)
Record wifi_state : Type := mkWifi {
  s_retry_num : Z;
  s_wifi_event_group : Z;
  connect_calls : nat;
  wifi_log : list log_entry
}.

Definition esp_wifi_connect (st : wifi_state) : wifi_state :=
  mkWifi (s_retry_num st) (s_wifi_event_group st)
         (S (connect_calls st)) (wifi_log st).

Definition xEventGroupSetBits (bits : Z) (st : wifi_state) : wifi_state :=
  mkWifi (s_retry_num st) (Z.lor (s_wifi_event_group st) bits)
         (connect_calls st) (wifi_log st).

Definition set_retry_num (n : Z) (st : wifi_state) : wifi_state :=
  mkWifi n (s_wifi_event_group st) (connect_calls st) (wifi_log st).

Definition wifi_logi (msg : string) (st : wifi_state) : wifi_state :=
  mkWifi (s_retry_num st) (s_wifi_event_group st) (connect_calls st)
         (wifi_log st ++ [(ESP_LOG_INFO, msg)]).

Definition wifi_loge (msg : string) (st : wifi_state) : wifi_state :=
  mkWifi (s_retry_num st) (s_wifi_event_group st) (connect_calls st)
         (wifi_log st ++ [(ESP_LOG_ERROR, msg)]).

(** State at the point where [wifi_init_sta] has created the event group:
    [static int s_retry_num = 0], no bit set, nothing issued. *)
Definition wifi_boot : wifi_state := mkWifi 0 0 0 [].

Section Attach.

(** Kconfig value [CONFIG_ESP_MAXIMUM_RETRY]. *)
Variable CONFIG_ESP_MAXIMUM_RETRY : Z.

(** [event_handler], lines 50-69. *)
Definition event_handler (ev : event) (st : wifi_state) : wifi_state :=
  if esp_event_base_eqb (event_base ev) WIFI_EVENT
     && (event_id ev =? WIFI_EVENT_STA_START) then
    esp_wifi_connect st
  else if esp_event_base_eqb (event_base ev) WIFI_EVENT
          && (event_id ev =? WIFI_EVENT_STA_DISCONNECTED) then
    let st1 :=
      if s_retry_num st <? CONFIG_ESP_MAXIMUM_RETRY then
        wifi_logi "retry to connect to the AP"
          (set_retry_num (s_retry_num st + 1) (esp_wifi_connect st))
      else
        xEventGroupSetBits WIFI_FAIL_BIT st in
    wifi_logi "connect to the AP fail" st1
  else if esp_event_base_eqb (event_base ev) IP_EVENT
          && (event_id ev =? IP_EVENT_STA_GOT_IP) then
    xEventGroupSetBits WIFI_CONNECTED_BIT
      (set_retry_num 0 (wifi_logi "got ip:%d.%d.%d.%d" st))
  else
    st.

(** The event loop task dispatching a batch of events to the handler. *)
Definition dispatch (evs : list event) (st : wifi_state) : wifi_state :=
  fold_left (fun s ev => event_handler ev s) evs st.

(** [xEventGroupWaitBits(group, mask, pdFALSE, pdFALSE, portMAX_DELAY)]:
    returns at once when a bit of [mask] is already set, otherwise the
    caller sleeps while the event loop dispatches the pending events and
    wakes at the first one that sets such a bit.  [None]: the events run
    out with no bit set and the caller is still blocked. *)
Fixpoint xEventGroupWaitBits (mask : Z) (evs : list event) (st : wifi_state)
  : option (Z * wifi_state) :=
  if negb (Z.land (s_wifi_event_group st) mask =? 0) then
    Some (s_wifi_event_group st, st)
  else
    match evs with
    | [] => None
    | ev :: evs' => xEventGroupWaitBits mask evs' (event_handler ev st)
    end.

(** The test of the returned bits, lines 126-134. *)
Definition attach_result (bits : Z) (st : wifi_state) : esp_err_t * wifi_state :=
  if negb (Z.land bits WIFI_CONNECTED_BIT =? 0) then
    (ESP_OK, wifi_logi "connected to ap SSID:%s password:%s" st)
  else if negb (Z.land bits WIFI_FAIL_BIT =? 0) then
    (ESP_FAIL, wifi_logi "Failed to connect to SSID:%s, password:%s" st)
  else
    (ESP_FAIL, wifi_loge "UNEXPECTED EVENT" st).

(** [wifi_init_sta], lines 71-141, from the creation of the event group on.
    [early] are the events the event loop dispatches between
    [esp_wifi_start] and the entry into [xEventGroupWaitBits]; [evs] are
    those that follow.  Whatever is left of [evs] when the wait returns is
    never dispatched: both handler instances are unregistered before the
    function returns. *)
Definition wifi_init_sta (early evs : list event)
  : option (esp_err_t * wifi_state) :=
  let st := dispatch early wifi_boot in
  match xEventGroupWaitBits (Z.lor WIFI_CONNECTED_BIT WIFI_FAIL_BIT) evs st with
  | None => None
  | Some (bits, st') => Some (attach_result bits st')
  end.

End Attach.

End Wifi.

(** ** Host rewriting: [query_mdns_host] and [convert_mdns_host] *)

Module Mdns.

Local Open Scope string_scope.

(** [strstr(s, needle)]: offset of the first occurrence of [needle] in [s],
    [None] for a null result. *)
Fixpoint strstr (s needle : string) : option nat :=
  if prefix needle s then Some 0
  else match s with
       | EmptyString => None
       | String _ s' => option_map S (strstr s' needle)
       end.

(** [strcpy(dst, src)] into an array of [size] chars stays inside it when
    the characters and the terminator fit. *)
Definition strcpy_fits (size : nat) (src : string) : bool :=
  Nat.ltb (String.length src) size.

(** [esp_ip4_addr_get_byte]: byte [idx] of the 32-bit address as it lies in
    memory (little endian on the ESP32). *)
Definition esp_ip4_addr_get_byte (addr : Z) (idx : Z) : Z :=
  Z.land (Z.shiftr addr (8 * idx)) 255.

(** [%d] of a non-negative value. *)
Definition fmt_d (v : Z) : string :=
  NilZero.string_of_uint (N.to_uint (Z.to_N v)).

(** [sprintf(ip, IPSTR, IP2STR(&addr))] with [IPSTR] = ["%d.%d.%d.%d"]. *)
Definition sprintf_IPSTR (addr : Z) : string :=
  fmt_d (esp_ip4_addr_get_byte addr 0) ++ "." ++
  fmt_d (esp_ip4_addr_get_byte addr 1) ++ "." ++
  fmt_d (esp_ip4_addr_get_byte addr 2) ++ "." ++
  fmt_d (esp_ip4_addr_get_byte addr 3).

(** Outcome of [query_mdns_host]: the returned code, the contents of the
    caller's [ip] array afterwards, and the log lines written. *)
Record query_outcome : Type := mkQuery {
  q_ret : esp_err_t;
  q_ip : string;
  q_log : list log_entry
}.

Section Resolver.

(** [mdns_query_a(host_name, timeout, &addr)] of the mDNS component: the
    returned code and the value left in [addr], which the caller has
    cleared beforehand. *)
Variable mdns_query_a : string -> Z -> esp_err_t * Z.

(** [query_mdns_host], lines 143-163.  [ip] is the caller's array as it is
    on entry. *)
Definition query_mdns_host (host_name : string) (ip : string) : query_outcome :=
  let log0 := [(ESP_LOG_DEBUG, "Query A: %s")] in
  let (err, addr) := mdns_query_a host_name 10000%Z in
  if negb (err =? 0)%Z then
    if (err =? ESP_ERR_NOT_FOUND)%Z then
      mkQuery ESP_FAIL ip (log0 ++ [(ESP_LOG_WARN, "%s: Host was not found!")])
    else
      mkQuery ESP_FAIL ip (log0 ++ [(ESP_LOG_ERROR, "Query Failed: %s")])
  else
    mkQuery ESP_OK (sprintf_IPSTR addr)
            (log0 ++ [(ESP_LOG_DEBUG, "Query A: %s.local resolved to: %d.%d.%d.%d")]).

(** A [%s] conversion reads an array of [size] chars as far as its first
    zero char; [contents] are the chars before that zero, [size] of them or
    more when the array holds none.  The read stays inside the array when
    a zero char lies within it. *)
Definition terminated_in (size : nat) (contents : string) : bool :=
  Nat.ltb (String.length contents) size.

(** [convert_mdns_host], lines 165-187: the contents of [to] on return
    (the log lines themselves are not kept).  [_ip0] is whatever the local
    array [_ip] holds before the query, which leaves it as it is when it
    fails.  [None]: [strcpy(_from, from)] runs past the 128 chars of
    [_from], or the [%s] of line 182 runs past the 128 chars of [_ip]. *)
Definition convert_mdns_host (_ip0 : string) (from : string) : option string :=
  let to := from in
  match strstr from ".local" with
  | None => Some to
  | Some _len =>
      if strcpy_fits 128 from then
        let _from := substring 0 _len from in
        let r := query_mdns_host _from _ip0 in
        (* ESP_LOGI(..., "query_mdns_host=%d _ip=[%s]", ret, _ip) *)
        if terminated_in 128 (q_ip r) then
          if negb (q_ret r =? ESP_OK)%Z then Some to
          else Some (q_ip r)
        else None
      else None
  end.

End Resolver.

(** Resolver stubs: a directory of advertised names, and a resolver in
    which every query fails with one given code. *)
Definition mdns_directory (dir : list (string * Z)) (host : string) (timeout : Z)
  : esp_err_t * Z :=
  match find (fun e => String.eqb (fst e) host) dir with
  | Some e => (ESP_OK, snd e)
  | None => (ESP_ERR_NOT_FOUND, 0%Z)
  end.

Definition mdns_failing (err : esp_err_t) (host : string) (timeout : Z)
  : esp_err_t * Z :=
  (err, 0%Z).

(** 10.0.0.5 as a 32-bit address in network byte order. *)
Definition addr_10_0_0_5 : Z := 83886090%Z.   (* 0x0500000A *)

(** Host names longer than the 128 chars of [_from]: 194 letters before
    [".local"], and 122 letters before [".local:1883"]. *)
Definition long_host : string :=
  string_of_list_ascii (repeat "a"%char 194) ++ ".local".

Definition long_host_port : string :=
  string_of_list_ascii (repeat "a"%char 122) ++ ".local:1883".

(** Stale contents of [_ip] with no zero char in the array: 128 times
    ['x']. *)
Definition stale_ip : string := string_of_list_ascii (repeat "x"%char 128).

End Mdns.

(** ** The message buffers between the radio task and the MQTT task *)

Module MessageBuffer.

(** Modelled from the spec: the FreeRTOS message buffer behind
    [xMessageBufferTrans] and [xMessageBufferRecv] is not part of the
    repository.  It is the spec's bounded byte channel: a capacity in bytes
    fixed at creation and a FIFO of discrete messages whose total size never
    exceeds the capacity; a message is enqueued whole or not at all. *)
Record MessageBuffer_t : Type := mkMB {
  xBufferSizeBytes : nat;
  messages : list (list byte)
}.

Definition portMAX_DELAY : Z := 4294967295%Z.

Definition bytes_used (mb : MessageBuffer_t) : nat :=
  list_sum (map (@List.length byte) (messages mb)).

Definition xMessageBufferCreate (size : nat) : MessageBuffer_t := mkMB size [].

Definition xMessageBufferSpacesAvailable (mb : MessageBuffer_t) : nat :=
  xBufferSizeBytes mb - bytes_used mb.

(** [xMessageBufferSend(mb, data, len, ticks)]: the first [len] bytes of
    [data] are enqueued as one message and [len] is returned when they fit;
    otherwise, no reader running in between, the wait of [ticks] expires,
    nothing is enqueued and 0 is returned. *)
Definition xMessageBufferSend (mb : MessageBuffer_t) (data : list byte)
    (len : nat) (ticks : Z) : MessageBuffer_t * nat :=
  if len <=? xMessageBufferSpacesAvailable mb then
    (mkMB (xBufferSizeBytes mb) (messages mb ++ [firstn len data]), len)
  else (mb, 0).

(** [xMessageBufferReceive(mb, buf, size, ticks)]: the oldest message, whole,
    when it fits in [size] bytes; a longer one stays queued and nothing is
    read.  On an empty buffer the call returns nothing after [ticks], and
    with [portMAX_DELAY] it never returns ([None]). *)
Definition xMessageBufferReceive (mb : MessageBuffer_t) (size : nat) (ticks : Z)
  : option (MessageBuffer_t * list byte) :=
  match messages mb with
  | [] => if (ticks =? portMAX_DELAY)%Z then None else Some (mb, [])
  | m :: rest =>
      if List.length m <=? size then Some (mkMB (xBufferSizeBytes mb) rest, m)
      else Some (mb, [])
  end.

End MessageBuffer.

(** ** The transceiver driver *)

Module Mirf.

(** Modelled from the spec: the nRF24L01 driver ([mirf.h]) is not under
    [src/].  It is the spec's radio capability: [readyToReceive],
    [receive], [send], [sendCompleted(timeout)].  The device keeps the
    frames waiting in its RX FIFO, the frames handed to it for
    transmission, and the completion status the chip will report for the
    transmissions to come. *)
Record NRF24_t : Type := mkDev {
  dev_payload : nat;
  rx_fifo : list (list byte);
  tx_frames : list (list byte);
  tx_status : list bool
}.

(** Copy [data] over the beginning of the array [buf]. *)
Definition store (data buf : list byte) : list byte :=
  data ++ skipn (List.length data) buf.

Definition Nrf24_dataReady (dev : NRF24_t) : bool :=
  match rx_fifo dev with
  | [] => false
  | _ :: _ => true
  end.

(** [Nrf24_getData(dev, buf)]: one frame of [payload] bytes leaves the RX
    FIFO and is copied into [buf]. *)
Definition Nrf24_getData (dev : NRF24_t) (buf : list byte) : NRF24_t * list byte :=
  match rx_fifo dev with
  | [] => (dev, buf)
  | frame :: rest =>
      (mkDev (dev_payload dev) rest (tx_frames dev) (tx_status dev),
       store (firstn (dev_payload dev) frame) buf)
  end.

(** [Nrf24_send(dev, buf)]: [payload] bytes of [buf] go on air. *)
Definition Nrf24_send (dev : NRF24_t) (buf : list byte) : NRF24_t :=
  mkDev (dev_payload dev) (rx_fifo dev)
        (tx_frames dev ++ [firstn (dev_payload dev) buf]) (tx_status dev).

(** [Nrf24_isSend(dev, timeout)]: true when the chip reports the frame
    sent, false on a failed transmission or when nothing is reported
    within [timeout]. *)
Definition Nrf24_isSend (dev : NRF24_t) (timeout : Z) : bool * NRF24_t :=
  match tx_status dev with
  | [] => (false, dev)
  | ok :: rest =>
      (ok, mkDev (dev_payload dev) (rx_fifo dev) (tx_frames dev) rest)
  end.

End Mirf.

(** ** The radio tasks: main loops of [receiver] and [sender] *)

Module Bridge.

Import MessageBuffer Mirf.
Local Open Scope string_scope.
Local Open Scope list_scope.

Definition xItemSize : nat := 32.
Definition payload : nat := 32.

(** [strlen] applied to an array: the number of bytes before the first
    zero byte; [None] when the array holds none, the scan leaving it. *)
Fixpoint strlen (buf : list byte) : option nat :=
  match buf with
  | [] => None
  | b :: rest => if Byte.eqb b x00 then Some 0 else option_map S (strlen rest)
  end.

(** [memset(buf, 0x00, n)]. *)
Definition memset0 (buf : list byte) (n : nat) : list byte :=
  store (repeat x00 n) buf.

Inductive cycle (S : Type) : Type :=
| Continue (st : S)     (* the end of the loop body is reached *)
| Break (st : S)        (* [break] *)
| Fault.                (* array overrun *)
Arguments Continue {S} st.
Arguments Break {S} st.
Arguments Fault {S}.

Inductive task (S : Type) : Type :=
| Looping (st : S)      (* still in the loop after the cycles considered *)
| Deleted (st : S)      (* left the loop and called [vTaskDelete(NULL)] *)
| Blocked (st : S)      (* suspended for ever in a blocking call *)
| Undefined.
Arguments Looping {S} st.
Arguments Deleted {S} st.
Arguments Blocked {S} st.
Arguments Undefined {S}.

(** *** [receiver], lines 244-262 *)

Record rx_state : Type := mkRx {
  rx_dev : NRF24_t;
  rx_buf : list byte;                      (* [uint8_t buf[xItemSize]] *)
  xMessageBufferTrans : MessageBuffer_t;
  rx_log : list log_entry
}.

Definition receiver_cycle (st : rx_state) : cycle rx_state :=
  if Nrf24_dataReady (rx_dev st) then
    let (dev, buf) := Nrf24_getData (rx_dev st) (rx_buf st) in
    let log1 := rx_log st ++ [(ESP_LOG_INFO, "HEXDUMP")] in
    match strlen buf with
    | None => Fault
    | Some rxLen =>
        let log2 := log1 ++ [(ESP_LOG_INFO, "rxLen=%d")] in
        let spacesAvailable := xMessageBufferSpacesAvailable (xMessageBufferTrans st) in
        let log3 := log2 ++ [(ESP_LOG_INFO, "spacesAvailable=%d")] in
        let (mb, sended) :=
          xMessageBufferSend (xMessageBufferTrans st) buf rxLen 100%Z in
        if negb (Nat.eqb sended rxLen) then
          Break (mkRx dev buf mb
                   (log3 ++ [(ESP_LOG_ERROR,
                              "xMessageBufferSend fail rxLen=%d sended=%d")]))
        else
          Continue (mkRx dev buf mb log3)
    end
  else
    Continue st.

(** The [while(1)] of lines 244-261 run for at most [n] cycles, and the
    [vTaskDelete(NULL)] after it. *)
Fixpoint receiver_loop (n : nat) (st : rx_state) : task rx_state :=
  match n with
  | 0 => Looping st
  | S n' =>
      match receiver_cycle st with
      | Continue st' => receiver_loop n' st'
      | Break st' => Deleted st'
      | Fault => Undefined
      end
  end.

(** *** [sender], lines 291-305 *)

Record tx_state : Type := mkTx {
  tx_dev : NRF24_t;
  tx_buf : list byte;                      (* [uint8_t buf[xItemSize]] *)
  xMessageBufferRecv : MessageBuffer_t;
  tx_log : list log_entry
}.

(** One turn of the loop; [None] when [xMessageBufferReceive] never
    returns. *)
Definition sender_cycle (st : tx_state) : option tx_state :=
  let buf0 := memset0 (tx_buf st) xItemSize in
  match xMessageBufferReceive (xMessageBufferRecv st)
          (List.length (tx_buf st)) portMAX_DELAY with
  | None => None
  | Some (mb, msg) =>
      let buf := store msg buf0 in
      let log1 := tx_log st
                  ++ [(ESP_LOG_INFO, "xMessageBufferReceive received=%d");
                      (ESP_LOG_INFO, "HEXDUMP")] in
      let dev1 := Nrf24_send (tx_dev st) buf in
      let log2 := log1 ++ [(ESP_LOG_INFO, "Wait for sending.....")] in
      let (ok, dev2) := Nrf24_isSend dev1 1000%Z in
      let log3 := if ok then log2 ++ [(ESP_LOG_INFO, "Send success")]
                  else log2 ++ [(ESP_LOG_WARN, "Send fail")] in
      Some (mkTx dev2 buf mb log3)
  end.

(** The [while(1)] of lines 292-305 run for at most [n] cycles.  A task
    suspended in [xMessageBufferReceive] holds the array it has just
    cleared. *)
Fixpoint sender_loop (n : nat) (st : tx_state) : task tx_state :=
  match n with
  | 0 => Looping st
  | S n' =>
      match sender_cycle st with
      | Some st' => sender_loop n' st'
      | None =>
          Blocked (mkTx (tx_dev st) (memset0 (tx_buf st) xItemSize)
                     (xMessageBufferRecv st) (tx_log st))
      end
  end.

(** *** Vocabulary of the statements *)

(** A message zero-padded to the item size. *)
Definition padded (msg : list byte) : list byte :=
  msg ++ repeat x00 (xItemSize - List.length msg).

(** The lines ["Send fail"] of a log. *)
Definition is_send_fail (e : log_entry) : bool :=
  esp_log_level_eqb (fst e) ESP_LOG_WARN && String.eqb (snd e) "Send fail".

Definition send_fail_lines (log : list log_entry) : nat :=
  List.length (filter is_send_fail log).

(** Among the first [n] transmissions, those the chip does not report as
    sent, given the status it reports for each, in order, and none once the
    list is used up. *)
Fixpoint failed_sends (n : nat) (status : list bool) : nat :=
  match n with
  | 0 => 0
  | S n' =>
      match status with
      | [] => S (failed_sends n' [])
      | ok :: rest => (if ok then 0 else 1) + failed_sends n' rest
      end
  end.

(** *** Sample frames and task states *)

(** The 32-byte frame ['A'; 0; 'B'; 0; ...; 0]. *)
Definition frame_A_nul_B : list byte := [x41; x00; x42] ++ repeat x00 29.

(** A 32-byte frame with no zero byte: 32 times ['A']. *)
Definition frame_full : list byte := repeat x41 32.

(** The 32-byte frame "HELLO" followed by zeros. *)
Definition frame_hello : list byte :=
  [x48; x45; x4c; x4c; x4f] ++ repeat x00 27.

Definition rx_sample (frames : list (list byte)) (capacity : nat) : rx_state :=
  mkRx (mkDev payload frames [] []) (repeat xff xItemSize)
       (xMessageBufferCreate capacity) [].

Definition tx_sample (msgs : list (list byte)) (status : list bool) : tx_state :=
  mkTx (mkDev payload [] [] status) (repeat xff xItemSize)
       (mkMB 1024 msgs) [].

End Bridge.

(** ** Start of the radio tasks and [app_main] *)

Module Startup.

Import MessageBuffer Mirf Bridge.
Local Open Scope string_scope.
Local Open Scope list_scope.

(** Kinds of events, for statements on event sequences. *)
Definition is_disconnected (ev : Wifi.event) : bool :=
  Wifi.esp_event_base_eqb (Wifi.event_base ev) Wifi.WIFI_EVENT
  && (Wifi.event_id ev =? Wifi.WIFI_EVENT_STA_DISCONNECTED)%Z.

Definition is_got_ip (ev : Wifi.event) : bool :=
  Wifi.esp_event_base_eqb (Wifi.event_base ev) Wifi.IP_EVENT
  && (Wifi.event_id ev =? Wifi.IP_EVENT_STA_GOT_IP)%Z.

(** What the handler keeps true from start-up on: the retry counter lies
    between 0 and the limit [M] and never exceeds the number of connection
    attempts issued, and the failed flag is up only once [M] attempts were
    issued. *)
Definition attach_inv (M : Z) (st : Wifi.wifi_state) : Prop :=
  (0 <= Wifi.s_retry_num st <= M)%Z
  /\ (Wifi.s_retry_num st <= Z.of_nat (Wifi.connect_calls st))%Z
  /\ (Z.land (Wifi.s_wifi_event_group st) Wifi.WIFI_FAIL_BIT <> 0%Z ->
      (M <= Z.of_nat (Wifi.connect_calls st))%Z).

(** Texts all of whose characters satisfy [p]; the characters of a dotted
    decimal address. *)
Fixpoint all_chars (p : ascii -> bool) (s : string) : bool :=
  match s with
  | EmptyString => true
  | String c s' => p c && all_chars p s'
  end.

Definition ip_char (c : ascii) : bool :=
  Ascii.eqb c "."%char
  || (Nat.leb 48 (nat_of_ascii c) && Nat.leb (nat_of_ascii c) 57).

(** The text a frame carries: its bytes before the first zero byte. *)
Fixpoint text_of (frame : list byte) : list byte :=
  match frame with
  | [] => []
  | b :: rest => if Byte.eqb b x00 then [] else b :: text_of rest
  end.

Definition nonzero (b : byte) : bool := negb (Byte.eqb b x00).

(** A message that is a text: fewer than [xItemSize] bytes, none of them
    zero. *)
Definition is_text (m : list byte) : bool :=
  Nat.ltb (List.length m) xItemSize && forallb nonzero m.

(** Outcome of a loop that is left by [break]: left with [a], or still
    turning after the cycles considered. *)
Inductive loop_exit (A : Type) : Type :=
| Exited (a : A)
| Turning (a : A).
Arguments Exited {A} a.
Arguments Turning {A} a.

(** [receiver], lines 238-242: the loop that clears the RX FIFO, run for at
    most [fuel] tests of [Nrf24_dataReady]. *)
Fixpoint clear_rx_fifo (fuel : nat) (dev : NRF24_t) (buf : list byte)
  : loop_exit (NRF24_t * list byte) :=
  match fuel with
  | 0 => Turning (dev, buf)
  | S fuel' =>
      if negb (Nrf24_dataReady dev) then Exited (dev, buf)
      else let (dev', buf') := Nrf24_getData dev buf in
           clear_rx_fifo fuel' dev' buf'
  end.

(** Modelled from the spec: [Nrf24_config(dev, channel, payload)] of the
    driver fixes the payload size of the device. *)
Definition Nrf24_config (dev : NRF24_t) (channel : Z) (payload : nat) : NRF24_t :=
  mkDev payload (rx_fifo dev) (tx_frames dev) (tx_status dev).


(** [receiver], lines 213-242: from the start of the task to the entry of
    the main loop.  [setRADDR] is what [Nrf24_setRADDR] returns, [buf0] the
    fresh array [buf].  [Blocked]: the task stays in
    [while(1) { vTaskDelay(1); }]; [Looping]: the main loop is entered
    with this state. *)
Definition receiver_start (CONFIG_RADIO_CHANNEL : Z) (setRADDR : esp_err_t)
    (fuel : nat) (st : rx_state) : option (task rx_state) :=
  let log0 := rx_log st ++ [(ESP_LOG_INFO, "Start")] in
  let dev := Nrf24_config (rx_dev st) CONFIG_RADIO_CHANNEL payload in
  if negb (setRADDR =? ESP_OK)%Z then
    Some (Blocked (mkRx dev (rx_buf st) (xMessageBufferTrans st)
                     (log0 ++ [(ESP_LOG_ERROR, "nrf24l01 not installed")])))
  else
    match clear_rx_fifo fuel dev (rx_buf st) with
    | Turning _ => None
    | Exited (dev', buf') =>
        Some (Looping (mkRx dev' buf' (xMessageBufferTrans st) log0))
    end.

(** *** [app_main], lines 313-345 *)

(** A run of start-up code: it completes with a value, stops in [abort()]
    at a failed check, or never gets past a blocking call. *)
Inductive boot (A : Type) : Type :=
| Done (a : A)
| Aborted (check : string)
| Waiting.
Arguments Done {A} a.
Arguments Aborted {A} check.
Arguments Waiting {A}.

Definition boot_bind {A B : Type} (c : boot A) (k : A -> boot B) : boot B :=
  match c with
  | Done a => k a
  | Aborted check => Aborted check
  | Waiting => Waiting
  end.

Notation "x <- c ;; k" := (boot_bind c (fun x => k))
  (at level 61, c at next level, right associativity).
Notation "c ;;; k" := (boot_bind c (fun _ => k))
  (at level 61, right associativity).

(** [ESP_ERROR_CHECK(x)] with the checks compiled in: [abort()] unless [x]
    is [ESP_OK]. *)
Definition ESP_ERROR_CHECK (what : string) (rc : esp_err_t) : boot unit :=
  if (rc =? ESP_OK)%Z then Done tt else Aborted what.

(** [configASSERT(handle)]. *)
Definition configASSERT (what : string) (handle_ok : bool) : boot unit :=
  if handle_ok then Done tt else Aborted what.

Definition ESP_ERR_NVS_NO_FREE_PAGES : esp_err_t := 4365%Z.        (* 0x110d *)
Definition ESP_ERR_NVS_NEW_VERSION_FOUND : esp_err_t := 4368%Z.    (* 0x1110 *)

(** What the platform answers during one start: the codes of the first
    [nvs_flash_init], of [nvs_flash_erase] and of the second
    [nvs_flash_init]; the events the Wi-Fi driver posts; whether each
    [xMessageBufferCreate] yields a handle; the code of [mdns_init]. *)
Record platform : Type := mkPlatform {
  nvs_flash_init_first : esp_err_t;
  nvs_flash_erase_ret : esp_err_t;
  nvs_flash_init_again : esp_err_t;
  wifi_events_early : list Wifi.event;
  wifi_events : list Wifi.event;
  trans_created : bool;
  recv_created : bool;
  mdns_init_ret : esp_err_t
}.

(** A task handed to [xTaskCreate]: name, stack depth, priority. *)
Record task_entry : Type := mkTask {
  pcName : string;
  usStackDepth : Z;
  uxPriority : Z
}.

(** What [app_main] has done when it returns. *)
Record started : Type := mkStarted {
  nvs_erased : bool;
  created_tasks : list task_entry
}.

Section AppMain.

Variable CONFIG_ESP_MAXIMUM_RETRY : Z.
Variable CONFIG_SENDER : bool.
Variable CONFIG_RECEIVER : bool.

Definition app_main (p : platform) : boot started :=
  let ret := nvs_flash_init_first p in
  erased_ret <-
    (if (ret =? ESP_ERR_NVS_NO_FREE_PAGES)%Z
        || (ret =? ESP_ERR_NVS_NEW_VERSION_FOUND)%Z then
       ESP_ERROR_CHECK "nvs_flash_erase()" (nvs_flash_erase_ret p) ;;;
       Done (true, nvs_flash_init_again p)
     else Done (false, ret)) ;;
  ESP_ERROR_CHECK "ret" (snd erased_ret) ;;;
  (match Wifi.wifi_init_sta CONFIG_ESP_MAXIMUM_RETRY
           (wifi_events_early p) (wifi_events p) with
   | None => Waiting
   | Some (rc, _) => ESP_ERROR_CHECK "wifi_init_sta()" rc
   end) ;;;
  configASSERT "xMessageBufferTrans" (trans_created p) ;;;
  configASSERT "xMessageBufferRecv" (recv_created p) ;;;
  ESP_ERROR_CHECK "mdns_init()" (mdns_init_ret p) ;;;
  Done (mkStarted (fst erased_ret)
          ((if CONFIG_SENDER
            then [mkTask "TX" (1024 * 3) 5; mkTask "SUB" (1024 * 4) 5]
            else [])
           ++
           (if CONFIG_RECEIVER
            then [mkTask "RX" (1024 * 3) 5; mkTask "PUB" (1024 * 4) 5]
            else []))).

End AppMain.

(** A platform on which every call succeeds at once and the access point
    answers the first connection attempt. *)
Definition platform_ok : platform :=
  mkPlatform ESP_OK ESP_OK ESP_OK [] [Wifi.ev_start; Wifi.ev_got_ip]
             true true ESP_OK.

End Startup.

(** * Properties *)

(** ** Station attach *)

Section WifiFacts.

Import Wifi.
Local Open Scope Z_scope.

Variable M : Z.

Local Abbreviation mask := (Z.lor WIFI_CONNECTED_BIT WIFI_FAIL_BIT).






Lemma attach_result_code (bits : Z) (st : wifi_state) :
  fst (attach_result bits st) =
    if negb (Z.land bits WIFI_CONNECTED_BIT =? 0) then ESP_OK else ESP_FAIL.
Proof.
  unfold attach_result.
  destruct (negb (Z.land bits WIFI_CONNECTED_BIT =? 0)); [reflexivity|].
  destruct (negb (Z.land bits WIFI_FAIL_BIT =? 0)); reflexivity.
Qed.

Lemma attach_result_calls (bits : Z) (st : wifi_state) :
  connect_calls (snd (attach_result bits st)) = connect_calls st
  /\ s_retry_num (snd (attach_result bits st)) = s_retry_num st
  /\ s_wifi_event_group (snd (attach_result bits st)) = s_wifi_event_group st.
Proof.
  unfold attach_result.
  destruct (negb (Z.land bits WIFI_CONNECTED_BIT =? 0)); [simpl; auto|].
  destruct (negb (Z.land bits WIFI_FAIL_BIT =? 0)); simpl; auto.
Qed.

End WifiFacts.

Section WifiClaims.

Import Wifi.
Local Open Scope Z_scope.




(** C9.  When the wait on the two terminal flags returns with both the
    connected flag and the failed flag set, the attach call returns
    [ESP_OK]: the connected flag is tested first. *)
Theorem attach_connected_first
    (maxRetries : Z) (early evs : list event) (bits : Z) (st : wifi_state) :
  xEventGroupWaitBits maxRetries (Z.lor WIFI_CONNECTED_BIT WIFI_FAIL_BIT)
    evs (dispatch maxRetries early wifi_boot) = Some (bits, st) ->
  Z.land bits WIFI_CONNECTED_BIT <> 0 ->
  Z.land bits WIFI_FAIL_BIT <> 0 ->
  exists st', wifi_init_sta maxRetries early evs = Some (ESP_OK, st').
Proof.
  intros Hwait Hc _. unfold wifi_init_sta. rewrite Hwait.
  unfold attach_result.
  apply Z.eqb_neq in Hc. rewrite Hc. simpl. eexists. reflexivity.
Qed.

Lemma attach_connected_first_witness :
  exists st',
    wifi_init_sta 1 [ev_start; ev_got_ip; ev_disconnected; ev_disconnected] []
      = Some (ESP_OK, st').
Proof.
  apply (attach_connected_first 1
           [ev_start; ev_got_ip; ev_disconnected; ev_disconnected] []
           3
           (dispatch 1 [ev_start; ev_got_ip; ev_disconnected; ev_disconnected]
              wifi_boot)).
  - vm_compute. reflexivity.
  - vm_compute. discriminate.
  - vm_compute. discriminate.
Defined.

End WifiClaims.

(** ** Host rewriting *)

Section StringFacts.

Import Mdns.
Local Open Scope string_scope.

Lemma prefix_split (a : string) :
  forall s, prefix a s = true -> exists post, s = a ++ post.
Proof.
  induction a as [|c a IH]; intros s H.
  - exists s. reflexivity.
  - destruct s as [|d s]; simpl in H; [discriminate|].
    destruct (ascii_dec c d) as [->|]; [|discriminate].
    destruct (IH s H) as (post & ->). exists post. reflexivity.
Qed.

Lemma prefix_append (a q : string) : prefix a (a ++ q) = true.
Proof.
  induction a as [|c a IH]; simpl.
  - destruct q; reflexivity.
  - destruct (ascii_dec c c); [exact IH | congruence].
Qed.

(** [strstr] returns the offset of an occurrence ... *)
Lemma strstr_split (needle : string) :
  forall s n,
    strstr s needle = Some n ->
    String.length (substring 0 n s) = n
    /\ exists post, s = substring 0 n s ++ needle ++ post.
Proof.
  induction s as [|c s IH]; intros n H; cbn [strstr] in H.
  - destruct (prefix needle "") eqn:Hp; [|discriminate].
    injection H as <-. split; [reflexivity|].
    destruct (prefix_split _ _ Hp) as (post & Hs). exists post. exact Hs.
  - destruct (prefix needle (String c s)) eqn:Hp.
    + injection H as <-. split; [reflexivity|].
      destruct (prefix_split _ _ Hp) as (post & Hs). exists post. exact Hs.
    + destruct (strstr s needle) as [n'|] eqn:Hs; [|discriminate].
      cbn [option_map] in H. injection H as <-.
      destruct (IH n' eq_refl) as (Hlen & post & Heq).
      cbn [substring String.length append]. split; [congruence|].
      exists post. rewrite <- Heq. reflexivity.
Qed.

Lemma strstr_at_occurrence (needle q : string) :
  strstr (needle ++ q) needle = Some 0.
Proof.
  destruct (needle ++ q) eqn:E; cbn [strstr];
    rewrite <- E, prefix_append; reflexivity.
Qed.

(** ... and of the first one. *)
Lemma strstr_least (needle : string) :
  forall p q n,
    strstr (p ++ needle ++ q) needle = Some n -> n <= String.length p.
Proof.
  induction p as [|c p IH]; intros q n H.
  - cbn [append] in H. rewrite strstr_at_occurrence in H.
    injection H as <-. simpl. lia.
  - cbn [append strstr] in H.
    destruct (prefix needle (String c (p ++ needle ++ q))).
    + injection H as <-. lia.
    + destruct (strstr (p ++ needle ++ q) needle) as [n'|] eqn:Hs; [|discriminate].
      cbn [option_map] in H. injection H as <-.
      specialize (IH q n' Hs). simpl. lia.
Qed.

Lemma strstr_found (needle : string) :
  forall p q, exists n, strstr (p ++ needle ++ q) needle = Some n.
Proof.
  induction p as [|c p IH]; intros q.
  - exists 0. cbn [append]. apply strstr_at_occurrence.
  - cbn [append strstr].
    destruct (prefix needle (String c (p ++ needle ++ q))).
    + exists 0. reflexivity.
    + destruct (IH q) as (n & ->). exists (S n). reflexivity.
Qed.

Lemma substring_append_left (p q : string) :
  substring 0 (String.length p) (p ++ q) = p.
Proof.
  induction p as [|c p IH]; simpl.
  - destruct q; reflexivity.
  - rewrite IH. reflexivity.
Qed.

Lemma strcpy_fits_lt (size : nat) (s : string) :
  String.length s < size -> strcpy_fits size s = true.
Proof. intros H. unfold strcpy_fits. apply Nat.ltb_lt. exact H. Qed.

End StringFacts.

Section TextFacts.

Import Mdns Startup.
Local Open Scope string_scope.

Lemma string_length_app (a b : string) :
  String.length (a ++ b) = String.length a + String.length b.
Proof. induction a as [|c a IH]; simpl; [reflexivity | rewrite IH; reflexivity]. Qed.

Lemma string_app_assoc (a b c : string) : (a ++ b) ++ c = a ++ b ++ c.
Proof. induction a as [|x a IH]; simpl; [reflexivity | rewrite IH; reflexivity]. Qed.

Lemma all_chars_app (p : ascii -> bool) (a b : string) :
  all_chars p (a ++ b) = all_chars p a && all_chars p b.
Proof.
  induction a as [|c a IH]; simpl; [reflexivity|].
  rewrite IH. apply andb_assoc.
Qed.

(** The part of a text before the first occurrence of a non-empty needle
    does not hold the needle. *)
Lemma strstr_cut_free (needle from : string) (n : nat) :
  0 < String.length needle ->
  strstr from needle = Some n ->
  strstr (substring 0 n from) needle = None.
Proof.
  intros Hne Hs.
  destruct (strstr_split needle from n Hs) as (Hlen & post & Heq).
  destruct (strstr (substring 0 n from) needle) as [m|] eqn:Hm; [exfalso|reflexivity].
  destruct (strstr_split needle _ m Hm) as (Hlen' & post' & Heq').
  set (cut := substring 0 n from) in *.
  set (p := substring 0 m cut) in *.
  assert (Hfrom : from = p ++ needle ++ (post' ++ needle ++ post)).
  { rewrite Heq at 1. rewrite Heq' at 1.
    rewrite !string_app_assoc. reflexivity. }
  assert (Hle : n <= String.length p).
  { apply (strstr_least needle p (post' ++ needle ++ post)).
    rewrite <- Hfrom. exact Hs. }
  assert (Hcut : String.length cut
                 = String.length p + (String.length needle + String.length post')).
  { rewrite Heq' at 1. rewrite !string_length_app. reflexivity. }
  lia.
Qed.


Lemma get_byte_range (addr idx : Z) :
  (0 <= esp_ip4_addr_get_byte addr idx < 256)%Z.
Proof.
  unfold esp_ip4_addr_get_byte.
  change 255%Z with (Z.ones 8). rewrite Z.land_ones by lia.
  apply Z.mod_pos_bound. reflexivity.
Qed.

(** [%d] of a byte: one to three digits. *)
Lemma fmt_d_byte (v : Z) :
  (0 <= v < 256)%Z ->
  1 <= String.length (fmt_d v) <= 3 /\ all_chars ip_char (fmt_d v) = true.
Proof.
  intros Hv.
  assert (Hall : forallb
                   (fun n => let s := fmt_d (Z.of_nat n) in
                             Nat.leb 1 (String.length s)
                             && Nat.leb (String.length s) 3
                             && all_chars ip_char s)
                   (seq 0 256) = true) by (vm_compute; reflexivity).
  rewrite forallb_forall in Hall.
  specialize (Hall (Z.to_nat v)).
  rewrite Z2Nat.id in Hall by lia.
  assert (Hin : In (Z.to_nat v) (seq 0 256)) by (apply in_seq; lia).
  apply Hall in Hin. cbv zeta in Hin.
  apply andb_prop in Hin. destruct Hin as [Hin Hc].
  apply andb_prop in Hin. destruct Hin as [H1 H3].
  apply Nat.leb_le in H1. apply Nat.leb_le in H3. auto.
Qed.

Lemma sprintf_IPSTR_shape (addr : Z) :
  7 <= String.length (sprintf_IPSTR addr) <= 15
  /\ all_chars ip_char (sprintf_IPSTR addr) = true.
Proof.
  unfold sprintf_IPSTR.
  destruct (fmt_d_byte _ (get_byte_range addr 0)) as (L0 & C0).
  destruct (fmt_d_byte _ (get_byte_range addr 1)) as (L1 & C1).
  destruct (fmt_d_byte _ (get_byte_range addr 2)) as (L2 & C2).
  destruct (fmt_d_byte _ (get_byte_range addr 3)) as (L3 & C3).
  rewrite !string_length_app, !all_chars_app, C0, C1, C2, C3.
  cbn [String.length all_chars andb]. split; [lia | reflexivity].
Qed.

End TextFacts.

Section ResolverFacts.

Import Mdns.
Local Open Scope string_scope.

Variable mdns_query_a : string -> Z -> esp_err_t * Z.

(** What [query_mdns_host] returns is decided by the code of the query. *)
Lemma query_mdns_host_failed (host ip : string) :
  fst (mdns_query_a host 10000%Z) <> 0%Z ->
  q_ret (query_mdns_host mdns_query_a host ip) = ESP_FAIL
  /\ q_ip (query_mdns_host mdns_query_a host ip) = ip.
Proof.
  intros Herr. unfold query_mdns_host.
  destruct (mdns_query_a host 10000%Z) as [err addr]. simpl in Herr.
  apply Z.eqb_neq in Herr. rewrite Herr. simpl.
  destruct (err =? ESP_ERR_NOT_FOUND)%Z; simpl; auto.
Qed.

Lemma query_mdns_host_resolved (host ip : string) :
  fst (mdns_query_a host 10000%Z) = 0%Z ->
  q_ret (query_mdns_host mdns_query_a host ip) = ESP_OK
  /\ q_ip (query_mdns_host mdns_query_a host ip)
     = sprintf_IPSTR (snd (mdns_query_a host 10000%Z)).
Proof.
  intros Herr. unfold query_mdns_host.
  destruct (mdns_query_a host 10000%Z) as [err addr]. simpl in Herr.
  subst err. simpl. auto.
Qed.

Lemma terminated_in_lt (size : nat) (s : string) :
  String.length s < size -> terminated_in size s = true.
Proof. intros H. unfold terminated_in. apply Nat.ltb_lt. exact H. Qed.

(** [convert_mdns_host] on a text that holds [".local"] and fits [_from]. *)
Lemma convert_mdns_host_found (_ip0 from : string) (n : nat) :
  strstr from ".local" = Some n ->
  String.length from < 128 ->
  convert_mdns_host mdns_query_a _ip0 from
  = if (fst (mdns_query_a (substring 0 n from) 10000%Z) =? 0)%Z
    then Some (sprintf_IPSTR (snd (mdns_query_a (substring 0 n from) 10000%Z)))
    else if terminated_in 128 _ip0 then Some from else None.
Proof.
  intros Hs Hlen. unfold convert_mdns_host.
  rewrite Hs, (strcpy_fits_lt 128 from Hlen).
  destruct (fst (mdns_query_a (substring 0 n from) 10000%Z) =? 0)%Z eqn:E.
  - apply Z.eqb_eq in E.
    destruct (query_mdns_host_resolved (substring 0 n from) _ip0 E) as (-> & ->).
    destruct (sprintf_IPSTR_shape
                (snd (mdns_query_a (substring 0 n from) 10000%Z))) as (Hl & _).
    rewrite terminated_in_lt by lia. reflexivity.
  - apply Z.eqb_neq in E.
    destruct (query_mdns_host_failed (substring 0 n from) _ip0 E) as (-> & ->).
    reflexivity.
Qed.

End ResolverFacts.

Section ResolverClaims.

Import Mdns.
Local Open Scope string_scope.

(** C2, as the code has it.  Whatever non-zero code the mDNS query returns,
    [ESP_ERR_NOT_FOUND] included, [query_mdns_host] returns the one value
    [ESP_FAIL] and leaves the caller's [ip] array as it was; a name that is
    not advertised differs from any other failure only in the line written
    to the log, a warning instead of an error. *)
Theorem query_failure_is_ESP_FAIL
    (mdns_query_a : string -> Z -> esp_err_t * Z) (host ip : string) :
  fst (mdns_query_a host 10000%Z) <> 0%Z ->
  let r := query_mdns_host mdns_query_a host ip in
  q_ret r = ESP_FAIL
  /\ q_ip r = ip
  /\ q_log r =
       [(ESP_LOG_DEBUG, "Query A: %s");
        if (fst (mdns_query_a host 10000%Z) =? ESP_ERR_NOT_FOUND)%Z
        then (ESP_LOG_WARN, "%s: Host was not found!")
        else (ESP_LOG_ERROR, "Query Failed: %s")].
Proof.
  intros Herr. unfold query_mdns_host.
  destruct (mdns_query_a host 10000%Z) as [err addr]. simpl in Herr |- *.
  apply Z.eqb_neq in Herr. rewrite Herr. simpl.
  destruct (err =? ESP_ERR_NOT_FOUND)%Z; simpl; auto.
Qed.

Lemma query_failure_is_ESP_FAIL_witness :
  let r := query_mdns_host (mdns_failing ESP_ERR_NOT_FOUND) "broker" "" in
  q_ret r = ESP_FAIL
  /\ q_ip r = ""
  /\ q_log r = [(ESP_LOG_DEBUG, "Query A: %s");
                (ESP_LOG_WARN, "%s: Host was not found!")].
Proof.
  apply (query_failure_is_ESP_FAIL (mdns_failing ESP_ERR_NOT_FOUND) "broker" "").
  vm_compute. discriminate.
Defined.

(** C2 as the spec words it does not hold: a query that ends in
    [ESP_ERR_NOT_FOUND] and one that ends in [ESP_ERR_TIMEOUT] give the
    caller the same return value and the same [ip] contents. *)
Lemma query_not_found_counterexample :
  q_ret (query_mdns_host (mdns_failing ESP_ERR_NOT_FOUND) "broker" "")
  = q_ret (query_mdns_host (mdns_failing ESP_ERR_TIMEOUT) "broker" "")
  /\ q_ip (query_mdns_host (mdns_failing ESP_ERR_NOT_FOUND) "broker" "")
     = q_ip (query_mdns_host (mdns_failing ESP_ERR_TIMEOUT) "broker" "").
Proof. split; reflexivity. Qed.

(** C4, as the code has it.  [convert_mdns_host] leaves in [to] the input
    text, unchanged, when the text holds no [".local"]; and when the text
    is shorter than 128 chars, the query for the part before the first
    [".local"] fails, with whatever code, and the array [_ip], which the
    failed query has not written and which line 182 then logs with [%s],
    holds a zero char within its 128 chars. *)
Theorem convert_fails_open
    (mdns_query_a : string -> Z -> esp_err_t * Z) (_ip0 from : string) :
  strstr from ".local" = None
  \/ (String.length from < 128
      /\ String.length _ip0 < 128
      /\ exists n, strstr from ".local" = Some n
                   /\ fst (mdns_query_a (substring 0 n from) 10000%Z) <> ESP_OK) ->
  convert_mdns_host mdns_query_a _ip0 from = Some from.
Proof.
  intros [Hnone | (Hlen & Hip & n & Hs & Herr)].
  - unfold convert_mdns_host. rewrite Hnone. reflexivity.
  - rewrite (convert_mdns_host_found mdns_query_a _ip0 from n Hs Hlen).
    apply Z.eqb_neq in Herr. unfold ESP_OK in Herr. rewrite Herr.
    rewrite (terminated_in_lt 128 _ip0 Hip). reflexivity.
Qed.

Lemma convert_fails_open_witness :
  convert_mdns_host (mdns_failing ESP_ERR_NOT_FOUND) "" "broker.local"
  = Some "broker.local".
Proof.
  apply (convert_fails_open (mdns_failing ESP_ERR_NOT_FOUND) "" "broker.local").
  right. split; [simpl; lia|]. split; [simpl; lia|].
  exists 6. split; [reflexivity | vm_compute; discriminate].
Defined.

(** C4 as the spec words it does not hold for every text.  On a 200-char
    name ending in [".local"] whose resolution fails, the copy into the
    128-char array [_from] overruns it.  On ["broker.local"], when the
    resolution fails and the 128 chars of [_ip] hold no zero char, the
    [%s] of line 182 runs past [_ip].  Neither call has a defined
    result. *)
Lemma convert_fails_open_counterexample :
  (String.length long_host = 200
   /\ fst (mdns_failing ESP_ERR_NOT_FOUND (substring 0 194 long_host) 10000%Z)
      = ESP_ERR_NOT_FOUND
   /\ convert_mdns_host (mdns_failing ESP_ERR_NOT_FOUND) "" long_host
      <> Some long_host)
  /\ (String.length stale_ip = 128
      /\ fst (mdns_failing ESP_ERR_NOT_FOUND "broker" 10000%Z)
         = ESP_ERR_NOT_FOUND
      /\ convert_mdns_host (mdns_failing ESP_ERR_NOT_FOUND) stale_ip
           "broker.local"
         <> Some "broker.local").
Proof.
  split.
  - split; [vm_compute; reflexivity|].
    split; [reflexivity|].
    vm_compute. discriminate.
  - split; [vm_compute; reflexivity|].
    split; [reflexivity|].
    vm_compute. discriminate.
Qed.

(** C5, as the code has it.  For a text shorter than 128 chars made of a
    name followed by [".local"], in which [".local"] does not occur
    earlier, and whose name the query resolves, [convert_mdns_host] leaves
    in [to] the resolved address in dotted decimal form. *)
Theorem convert_resolves_local_name
    (mdns_query_a : string -> Z -> esp_err_t * Z)
    (_ip0 name : string) (addr : Z) :
  strstr (name ++ ".local") ".local" = Some (String.length name) ->
  String.length (name ++ ".local") < 128 ->
  mdns_query_a name 10000%Z = (ESP_OK, addr) ->
  convert_mdns_host mdns_query_a _ip0 (name ++ ".local")
  = Some (sprintf_IPSTR addr).
Proof.
  intros Hs Hlen Hq.
  rewrite (convert_mdns_host_found mdns_query_a _ip0 _ _ Hs Hlen).
  rewrite substring_append_left, Hq. reflexivity.
Qed.

Lemma convert_resolves_local_name_witness :
  convert_mdns_host (mdns_directory [("broker", addr_10_0_0_5)]) "" "broker.local"
  = Some "10.0.0.5".
Proof.
  apply (convert_resolves_local_name
           (mdns_directory [("broker", addr_10_0_0_5)]) "" "broker"
           addr_10_0_0_5).
  - reflexivity.
  - simpl. lia.
  - reflexivity.
Defined.

(** C5 as the spec words it does not hold for every text ending in the
    suffix: ["x.local.local"] ends in [".local"] and its prefix
    ["x.local"] resolves to 10.0.0.5, yet the text comes back unchanged,
    the query having been made for ["x"]; and on the 200-char name
    [long_host], whose prefix resolves as well, the copy into [_from]
    overruns the array. *)
Lemma convert_resolves_local_name_counterexample :
  ("x.local.local" = "x.local" ++ ".local"
   /\ mdns_directory [("x.local", addr_10_0_0_5)] "x.local" 10000%Z
      = (ESP_OK, addr_10_0_0_5)
   /\ convert_mdns_host (mdns_directory [("x.local", addr_10_0_0_5)]) ""
        "x.local.local"
      = Some "x.local.local"
   /\ sprintf_IPSTR addr_10_0_0_5 <> "x.local.local")
  /\ (long_host = substring 0 194 long_host ++ ".local"
      /\ mdns_directory [(substring 0 194 long_host, addr_10_0_0_5)]
           (substring 0 194 long_host) 10000%Z = (ESP_OK, addr_10_0_0_5)
      /\ convert_mdns_host
           (mdns_directory [(substring 0 194 long_host, addr_10_0_0_5)]) ""
           long_host
         = None).
Proof.
  split.
  - repeat split; try reflexivity. vm_compute. discriminate.
  - repeat split; vm_compute; reflexivity.
Qed.

(** C8, as the code has it.  For a text shorter than 128 chars in which
    [".local"] occurs, at offset [n] for the first time, the text is cut at
    [n], the query is made for the [n] chars before it, and on success
    [to] holds the resolved address and nothing else: the chars after
    [".local"] are gone.  On failure [to] holds the text, provided the
    array [_ip], logged with [%s] at line 182 without having been written,
    holds a zero char within its 128 chars. *)
Theorem convert_cuts_at_first_local
    (mdns_query_a : string -> Z -> esp_err_t * Z)
    (_ip0 from : string) (n : nat) :
  strstr from ".local" = Some n ->
  String.length from < 128 ->
  let cut := substring 0 n from in
  (exists tail, from = cut ++ ".local" ++ tail)
  /\ (forall p q, from = p ++ ".local" ++ q -> String.length cut <= String.length p)
  /\ (fst (mdns_query_a cut 10000%Z) = ESP_OK ->
      convert_mdns_host mdns_query_a _ip0 from
      = Some (sprintf_IPSTR (snd (mdns_query_a cut 10000%Z))))
  /\ (fst (mdns_query_a cut 10000%Z) <> ESP_OK ->
      String.length _ip0 < 128 ->
      convert_mdns_host mdns_query_a _ip0 from = Some from).
Proof.
  intros Hs Hlen cut.
  destruct (strstr_split ".local" from n Hs) as (Hcut & tail & Heq).
  split; [exists tail; exact Heq|].
  split; [|split].
  - intros p q Hpq. fold cut in Hcut. rewrite Hcut.
    apply (strstr_least ".local" p q). rewrite <- Hpq. exact Hs.
  - intros Hok.
    rewrite (convert_mdns_host_found mdns_query_a _ip0 from n Hs Hlen).
    fold cut. rewrite Hok. reflexivity.
  - intros Herr Hip.
    rewrite (convert_mdns_host_found mdns_query_a _ip0 from n Hs Hlen).
    fold cut. apply Z.eqb_neq in Herr. unfold ESP_OK in Herr. rewrite Herr.
    rewrite (terminated_in_lt 128 _ip0 Hip). reflexivity.
Qed.

Lemma convert_cuts_at_first_local_witness :
  convert_mdns_host (mdns_directory [("broker", addr_10_0_0_5)]) ""
    "broker.local:1883"
  = Some "10.0.0.5".
Proof.
  exact (proj1 (proj2 (proj2
    (convert_cuts_at_first_local
       (mdns_directory [("broker", addr_10_0_0_5)]) "" "broker.local:1883" 6
       eq_refl ltac:(simpl; lia)))) eq_refl).
Defined.

(** C8 does not hold for every text: on a 133-char text holding
    [".local"] whose name resolves, the copy into the 128-char array
    [_from] overruns it and the call has no defined result. *)
Lemma convert_cuts_at_first_local_counterexample :
  String.length long_host_port = 133
  /\ strstr long_host_port ".local" = Some 122
  /\ mdns_directory [(substring 0 122 long_host_port, addr_10_0_0_5)]
       (substring 0 122 long_host_port) 10000%Z = (ESP_OK, addr_10_0_0_5)
  /\ convert_mdns_host
       (mdns_directory [(substring 0 122 long_host_port, addr_10_0_0_5)]) ""
       long_host_port
     <> Some (sprintf_IPSTR addr_10_0_0_5).
Proof.
  split; [vm_compute; reflexivity|].
  split; [vm_compute; reflexivity|].
  split; [vm_compute; reflexivity|].
  vm_compute. discriminate.
Qed.

End ResolverClaims.

(** ** The radio tasks *)

Section BufferFacts.

Import MessageBuffer Mirf Bridge.

Lemma store_whole (data buf : list byte) :
  List.length data = List.length buf -> store data buf = data.
Proof.
  intros H. unfold store. rewrite H, skipn_all. apply app_nil_r.
Qed.

Lemma store_length (data buf : list byte) :
  List.length data <= List.length buf ->
  List.length (store data buf) = List.length buf.
Proof.
  intros H. unfold store. rewrite length_app, length_skipn. lia.
Qed.

Lemma memset0_all (buf : list byte) :
  List.length buf = xItemSize -> memset0 buf xItemSize = repeat x00 xItemSize.
Proof.
  intros H. unfold memset0. apply store_whole. rewrite repeat_length. auto.
Qed.

Lemma skipn_zeros (n : nat) :
  forall m, skipn n (repeat x00 m) = repeat x00 (m - n).
Proof.
  induction n as [|n IH]; intros m.
  - rewrite Nat.sub_0_r. reflexivity.
  - destruct m as [|m]; [reflexivity|]. simpl. apply IH.
Qed.

Lemma store_in_zeros (msg : list byte) :
  store msg (repeat x00 xItemSize) = padded msg.
Proof.
  unfold store, padded. f_equal. apply skipn_zeros.
Qed.

Lemma padded_length (msg : list byte) :
  List.length msg <= xItemSize -> List.length (padded msg) = xItemSize.
Proof.
  intros H. unfold padded. rewrite length_app, repeat_length. lia.
Qed.

(** A receive never hands over more than the caller's array holds. *)
Lemma receive_bound (mb mb' : MessageBuffer_t) (size : nat) (ticks : Z)
    (msg : list byte) :
  xMessageBufferReceive mb size ticks = Some (mb', msg) ->
  List.length msg <= size.
Proof.
  unfold xMessageBufferReceive. destruct (messages mb) as [|m rest].
  - destruct (ticks =? portMAX_DELAY)%Z; [discriminate|].
    intros [= _ <-]. simpl. lia.
  - destruct (List.length m <=? size) eqn:E; intros [= _ <-].
    + apply Nat.leb_le. exact E.
    + simpl. lia.
Qed.

Lemma strlen_bound (buf : list byte) :
  forall n, strlen buf = Some n -> n < List.length buf.
Proof.
  induction buf as [|b buf IH]; intros n H; simpl in H; [discriminate|].
  destruct (Byte.eqb b x00).
  - injection H as <-. simpl. lia.
  - destruct (strlen buf) as [k|]; [|discriminate].
    simpl in H. injection H as <-. specialize (IH k eq_refl). simpl. lia.
Qed.

End BufferFacts.

Section ReceiverClaims.

Import MessageBuffer Mirf Bridge.
Local Open Scope string_scope.
Local Open Scope list_scope.

(** What one cycle does with a frame that holds a zero byte. *)
Lemma receiver_cycle_frame (st : rx_state) (frame : list byte)
    (rest : list (list byte)) (n : nat) :
  rx_fifo (rx_dev st) = frame :: rest ->
  dev_payload (rx_dev st) = payload ->
  List.length frame = payload ->
  List.length (rx_buf st) = xItemSize ->
  strlen frame = Some n ->
  let sent := xMessageBufferSend (xMessageBufferTrans st) frame n 100%Z in
  let dev := mkDev payload rest (tx_frames (rx_dev st)) (tx_status (rx_dev st)) in
  let log3 := rx_log st ++ [(ESP_LOG_INFO, "HEXDUMP")]
                ++ [(ESP_LOG_INFO, "rxLen=%d")]
                ++ [(ESP_LOG_INFO, "spacesAvailable=%d")] in
  receiver_cycle st =
    if negb (Nat.eqb (snd sent) n) then
      Break (mkRx dev frame (fst sent)
               (log3 ++ [(ESP_LOG_ERROR,
                          "xMessageBufferSend fail rxLen=%d sended=%d")]))
    else Continue (mkRx dev frame (fst sent) log3).
Proof.
  intros Hfifo Hpay Hlen Hbuf Hstr.
  unfold receiver_cycle, Nrf24_dataReady, Nrf24_getData.
  rewrite Hfifo, Hpay, <- Hlen, firstn_all, store_whole
    by (rewrite Hlen, Hbuf; reflexivity).
  rewrite Hstr. cbv zeta.
  destruct (xMessageBufferSend (xMessageBufferTrans st) frame n 100%Z)
    as [mb sended].
  rewrite Hlen. cbn [fst snd]. rewrite <- !app_assoc. reflexivity.
Qed.

(** C1, as the code has it.  A 32-byte frame that holds a zero byte leaves
    the transceiver and reaches the uplink buffer through one call of
    [xMessageBufferSend], which is given the bytes before the first zero
    byte and no others; with room in the buffer, that prefix becomes the
    one new message of the buffer and the loop goes on. *)
Theorem receiver_forwards_text (st : rx_state) (frame : list byte)
    (rest : list (list byte)) (n : nat) :
  rx_fifo (rx_dev st) = frame :: rest ->
  dev_payload (rx_dev st) = payload ->
  List.length frame = payload ->
  List.length (rx_buf st) = xItemSize ->
  strlen frame = Some n ->
  exists st',
    (receiver_cycle st = Continue st' \/ receiver_cycle st = Break st')
    /\ rx_fifo (rx_dev st') = rest
    /\ xMessageBufferTrans st'
       = fst (xMessageBufferSend (xMessageBufferTrans st) frame n 100%Z)
    /\ (n <= xMessageBufferSpacesAvailable (xMessageBufferTrans st) ->
        receiver_cycle st = Continue st'
        /\ messages (xMessageBufferTrans st')
           = messages (xMessageBufferTrans st) ++ [firstn n frame]).
Proof.
  intros Hfifo Hpay Hlen Hbuf Hstr.
  pose proof (receiver_cycle_frame st frame rest n Hfifo Hpay Hlen Hbuf Hstr) as Hc.
  cbv zeta in Hc.
  destruct (negb (Nat.eqb
              (snd (xMessageBufferSend (xMessageBufferTrans st) frame n 100%Z))
              n)) eqn:E;
    (eexists; split; [ (left; exact Hc) || (right; exact Hc) |]);
    (split; [reflexivity|]); (split; [reflexivity|]);
    intros Hroom; apply Nat.leb_le in Hroom.
  - unfold xMessageBufferSend in E. rewrite Hroom in E. cbn [snd] in E.
    rewrite Nat.eqb_refl in E. discriminate.
  - split; [exact Hc|]. cbn [xMessageBufferTrans].
    unfold xMessageBufferSend. rewrite Hroom. reflexivity.
Qed.

Lemma receiver_forwards_text_witness :
  exists st',
    receiver_cycle (rx_sample [frame_hello] 1024) = Continue st'
    /\ messages (xMessageBufferTrans st') = [[x48; x45; x4c; x4c; x4f]].
Proof.
  destruct (receiver_forwards_text (rx_sample [frame_hello] 1024)
              frame_hello [] 5 eq_refl eq_refl eq_refl eq_refl eq_refl)
    as (st' & _ & _ & _ & Hroom).
  exists st'. apply Hroom. vm_compute. lia.
Defined.

(** C1 as the spec words it does not hold: of the 32-byte frame
    ['A'; 0; 'B'; 0; ...] only the byte ['A'] is forwarded; and for a
    32-byte frame without a zero byte the length scan leaves the array, so
    that nothing is known of what is sent. *)
Lemma receiver_forwards_text_counterexample :
  (List.length frame_A_nul_B = 32
   /\ exists st',
        receiver_cycle (rx_sample [frame_A_nul_B] 1024) = Continue st'
        /\ messages (xMessageBufferTrans st') = [[x41]]
        /\ messages (xMessageBufferTrans st') <> [frame_A_nul_B])
  /\ (List.length frame_full = 32
      /\ receiver_cycle (rx_sample [frame_full] 1024) = Fault).
Proof.
  split; split; try reflexivity.
  eexists. split; [vm_compute; reflexivity|].
  split; [reflexivity | vm_compute; discriminate].
Qed.

(** C6.  In a cycle where a frame is drained and [xMessageBufferSend]
    returns fewer bytes than the length it was given, the worker logs the
    failure, leaves the loop and deletes its task: no later cycle runs,
    however many would have followed, and the frames still in the
    transceiver stay there. *)
Theorem receiver_stops_on_short_send (st : rx_state) (dev : NRF24_t)
    (buf : list byte) (rxLen : nat) (mb : MessageBuffer_t) (sended : nat)
    (more : nat) :
  Nrf24_dataReady (rx_dev st) = true ->
  Nrf24_getData (rx_dev st) (rx_buf st) = (dev, buf) ->
  strlen buf = Some rxLen ->
  xMessageBufferSend (xMessageBufferTrans st) buf rxLen 100%Z = (mb, sended) ->
  sended < rxLen ->
  exists log,
    receiver_loop (S more) st
    = Deleted (mkRx dev buf mb
                 (log ++ [(ESP_LOG_ERROR,
                           "xMessageBufferSend fail rxLen=%d sended=%d")])).
Proof.
  intros Hready Hget Hstr Hsend Hshort.
  cbn [receiver_loop]. unfold receiver_cycle.
  rewrite Hready, Hget, Hstr, Hsend.
  assert (E : Nat.eqb sended rxLen = false) by (apply Nat.eqb_neq; lia).
  rewrite E. cbn [negb]. eexists. reflexivity.
Qed.

Lemma receiver_stops_on_short_send_witness :
  exists log,
    receiver_loop 10 (rx_sample [frame_hello; frame_hello] 4)
    = Deleted (mkRx (mkDev payload [frame_hello] [] []) frame_hello
                 (xMessageBufferCreate 4)
                 (log ++ [(ESP_LOG_ERROR,
                           "xMessageBufferSend fail rxLen=%d sended=%d")])).
Proof.
  apply (receiver_stops_on_short_send
           (rx_sample [frame_hello; frame_hello] 4)
           (mkDev payload [frame_hello] [] []) frame_hello 5
           (xMessageBufferCreate 4) 0 9).
  - reflexivity.
  - reflexivity.
  - reflexivity.
  - reflexivity.
  - lia.
Defined.

End ReceiverClaims.

Section SenderClaims.

Import MessageBuffer Mirf Bridge.
Local Open Scope string_scope.
Local Open Scope list_scope.

Lemma send_fail_lines_app (l l' : list log_entry) :
  send_fail_lines (l ++ l') = send_fail_lines l + send_fail_lines l'.
Proof. unfold send_fail_lines. rewrite filter_app, length_app. reflexivity. Qed.

Lemma failed_sends_succ (n : nat) (status : list bool) :
  failed_sends (S n) status = failed_sends 1 status + failed_sends n (tl status).
Proof.
  destruct status as [|ok rest]; simpl; [reflexivity|].
  destruct ok; simpl; lia.
Qed.

(** One cycle of the sender, from a received message on. *)
Lemma sender_cycle_received (st : tx_state) (mb : MessageBuffer_t)
    (msg : list byte) :
  List.length (tx_buf st) = xItemSize ->
  dev_payload (tx_dev st) = payload ->
  xMessageBufferReceive (xMessageBufferRecv st) (List.length (tx_buf st))
    portMAX_DELAY = Some (mb, msg) ->
  exists st',
    sender_cycle st = Some st'
    /\ tx_frames (tx_dev st') = tx_frames (tx_dev st) ++ [padded msg]
    /\ tx_buf st' = padded msg
    /\ xMessageBufferRecv st' = mb
    /\ tx_status (tx_dev st') = tl (tx_status (tx_dev st))
    /\ dev_payload (tx_dev st') = payload
    /\ rx_fifo (tx_dev st') = rx_fifo (tx_dev st)
    /\ send_fail_lines (tx_log st')
       = send_fail_lines (tx_log st) + failed_sends 1 (tx_status (tx_dev st)).
Proof.
  intros Hbuf Hpay Hrecv.
  pose proof (receive_bound _ _ _ _ _ Hrecv) as Hle. rewrite Hbuf in Hle.
  unfold sender_cycle. rewrite Hrecv, (memset0_all _ Hbuf), store_in_zeros.
  unfold Nrf24_send, Nrf24_isSend. cbn [tx_status dev_payload].
  rewrite Hpay.
  replace (firstn payload (padded msg)) with (padded msg)
    by (symmetry; apply firstn_all2; rewrite (padded_length _ Hle); reflexivity).
  destruct (tx_status (tx_dev st)) as [|ok rest];
    [|destruct ok]; eexists; (split; [reflexivity|]);
    cbn [tx_dev tx_buf xMessageBufferRecv tx_log tx_frames tx_status
         dev_payload rx_fifo tl];
    repeat (split; [reflexivity|]);
    rewrite !send_fail_lines_app; cbn; lia.
Qed.

(** C10.  Whatever the array held before, each cycle hands the
    transceiver a frame of exactly [xItemSize] = 32 bytes made of the bytes
    just received from the downlink buffer followed by zero bytes, for a
    received message of any length (none received included). *)
Theorem sender_frame_zero_padded (st : tx_state) (mb : MessageBuffer_t)
    (msg : list byte) :
  List.length (tx_buf st) = xItemSize ->
  dev_payload (tx_dev st) = payload ->
  xMessageBufferReceive (xMessageBufferRecv st) (List.length (tx_buf st))
    portMAX_DELAY = Some (mb, msg) ->
  exists st',
    sender_cycle st = Some st'
    /\ tx_frames (tx_dev st')
       = tx_frames (tx_dev st)
           ++ [msg ++ repeat x00 (xItemSize - List.length msg)]
    /\ List.length (msg ++ repeat x00 (xItemSize - List.length msg)) = 32.
Proof.
  intros Hbuf Hpay Hrecv.
  destruct (sender_cycle_received st mb msg Hbuf Hpay Hrecv)
    as (st' & Hc & Hf & _).
  exists st'. split; [exact Hc|]. split; [exact Hf|].
  apply padded_length.
  pose proof (receive_bound _ _ _ _ _ Hrecv) as Hle. rewrite Hbuf in Hle.
  exact Hle.
Qed.

Lemma sender_frame_zero_padded_witness :
  exists st',
    sender_cycle (tx_sample [[x48; x49]] [true]) = Some st'
    /\ tx_frames (tx_dev st') = [] ++ [[x48; x49] ++ repeat x00 (xItemSize - 2)]
    /\ List.length ([x48; x49] ++ repeat x00 (xItemSize - 2)) = 32.
Proof.
  apply (sender_frame_zero_padded (tx_sample [[x48; x49]] [true])
           (mkMB 1024 []) [x48; x49]); reflexivity.
Defined.

(** The sender over [n] queued messages. *)
Lemma sender_loop_run (n : nat) :
  forall st : tx_state,
    List.length (tx_buf st) = xItemSize ->
    dev_payload (tx_dev st) = payload ->
    Forall (fun m => List.length m <= xItemSize) (messages (xMessageBufferRecv st)) ->
    n <= List.length (messages (xMessageBufferRecv st)) ->
    exists st',
      sender_loop n st = Looping st'
      /\ tx_frames (tx_dev st')
         = tx_frames (tx_dev st)
             ++ map padded (firstn n (messages (xMessageBufferRecv st)))
      /\ messages (xMessageBufferRecv st')
         = skipn n (messages (xMessageBufferRecv st))
      /\ send_fail_lines (tx_log st')
         = send_fail_lines (tx_log st)
           + failed_sends n (tx_status (tx_dev st)).
Proof.
  induction n as [|n IH]; intros st Hbuf Hpay Hall Hn.
  - exists st. cbn [sender_loop firstn skipn map failed_sends].
    rewrite app_nil_r, Nat.add_0_r. auto.
  - destruct (messages (xMessageBufferRecv st)) as [|m rest] eqn:Hq;
      [simpl in Hn; lia|].
    assert (Hm : List.length m <= xItemSize) by (inversion Hall; assumption).
    assert (Hrest : Forall (fun m => List.length m <= xItemSize) rest)
      by (inversion Hall; assumption).
    assert (Hrecv : xMessageBufferReceive (xMessageBufferRecv st)
                      (List.length (tx_buf st)) portMAX_DELAY
                    = Some (mkMB (xBufferSizeBytes (xMessageBufferRecv st)) rest, m)).
    { unfold xMessageBufferReceive. rewrite Hq, Hbuf.
      apply Nat.leb_le in Hm. rewrite Hm. reflexivity. }
    destruct (sender_cycle_received st _ m Hbuf Hpay Hrecv)
      as (st1 & Hc & Hf & Hb & Hmb & Hs & Hp & _ & Hl).
    destruct (IH st1) as (st' & Hloop & Hf' & Hq' & Hl').
    + rewrite Hb. apply padded_length. exact Hm.
    + exact Hp.
    + rewrite Hmb. exact Hrest.
    + rewrite Hmb. simpl in Hn |- *. lia.
    + exists st'. cbn [sender_loop]. rewrite Hc. split; [exact Hloop|].
      rewrite Hmb in Hf', Hq'. cbn [messages] in Hf', Hq'.
      rewrite Hs in Hl'.
      split; [|split].
      * rewrite Hf', Hf, <- app_assoc. reflexivity.
      * exact Hq'.
      * rewrite Hl', Hl, (failed_sends_succ n). lia.
Qed.

(** The sender loop has no way out: it is still turning, or suspended in
    the receive. *)
Lemma sender_loop_alive (n : nat) :
  forall st : tx_state,
    (exists st', sender_loop n st = Looping st')
    \/ (exists st', sender_loop n st = Blocked st').
Proof.
  induction n as [|n IH]; intros st; cbn [sender_loop].
  - left. exists st. reflexivity.
  - destruct (sender_cycle st) as [st1|]; [apply IH|].
    right. eexists. reflexivity.
Qed.

(** C7.  After any number of cycles the sender has not left its loop: it
    is still turning or waits for the next message.  With [n] messages of
    at most 32 bytes waiting in the downlink buffer, and whatever
    completion status the transceiver reports for each transmission, the
    sender is still in its loop after [n] cycles; it has handed each
    message to the transceiver once, in order, and has moved on to the
    next one after a failure as after a success; every failed transmission
    has left one line ["Send fail"] in the log. *)
Theorem sender_proceeds_after_failure (n : nat) (st : tx_state) :
  ((exists st', sender_loop n st = Looping st')
   \/ (exists st', sender_loop n st = Blocked st'))
  /\
  (List.length (tx_buf st) = xItemSize ->
   dev_payload (tx_dev st) = payload ->
   Forall (fun m => List.length m <= xItemSize) (messages (xMessageBufferRecv st)) ->
   n <= List.length (messages (xMessageBufferRecv st)) ->
   exists st',
     sender_loop n st = Looping st'
     /\ tx_frames (tx_dev st')
        = tx_frames (tx_dev st)
            ++ map padded (firstn n (messages (xMessageBufferRecv st)))
     /\ messages (xMessageBufferRecv st')
        = skipn n (messages (xMessageBufferRecv st))
     /\ send_fail_lines (tx_log st')
        = send_fail_lines (tx_log st) + failed_sends n (tx_status (tx_dev st))).
Proof. split; [apply sender_loop_alive | apply sender_loop_run]. Qed.

Lemma sender_proceeds_after_failure_witness :
  exists st',
    sender_loop 3 (tx_sample [[x41]; [x42]; [x43]] [true; false; true])
    = Looping st'
    /\ tx_frames (tx_dev st') = [padded [x41]; padded [x42]; padded [x43]]
    /\ messages (xMessageBufferRecv st') = []
    /\ send_fail_lines (tx_log st') = 1.
Proof.
  apply (proj2 (sender_proceeds_after_failure 3
           (tx_sample [[x41]; [x42]; [x43]] [true; false; true]))).
  - reflexivity.
  - reflexivity.
  - repeat constructor; simpl; unfold xItemSize; lia.
  - simpl. lia.
Defined.

End SenderClaims.

(** * Further properties of the code *)

(** ** Station attach *)

Section WifiInvariants.

Import Wifi Startup.
Local Open Scope Z_scope.

Variable M : Z.

Local Abbreviation mask := (Z.lor WIFI_CONNECTED_BIT WIFI_FAIL_BIT).

(** The handler, event kind by event kind. *)
Ltac handler_cases ev st :=
  unfold event_handler;
  destruct ev as [[|] id];
  cbn [event_base event_id esp_event_base_eqb andb];
  try destruct (id =? WIFI_EVENT_STA_START);
  try destruct (id =? WIFI_EVENT_STA_DISCONNECTED);
  try destruct (id =? IP_EVENT_STA_GOT_IP);
  try destruct (s_retry_num st <? M) eqn:?;
  cbn [s_retry_num s_wifi_event_group connect_calls wifi_log
       esp_wifi_connect xEventGroupSetBits set_retry_num wifi_logi].

Lemma land_set_same (b x : Z) : x <> 0 -> Z.land x x = x -> Z.land (Z.lor b x) x <> 0.
Proof.
  intros Hx Hxx. rewrite Z.land_lor_distr_l, Hxx.
  intros H. apply Z.lor_eq_0_iff in H. tauto.
Qed.

Lemma land_set_other (b x y : Z) :
  Z.land x y = 0 -> Z.land (Z.lor b x) y = Z.land b y.
Proof.
  intros H. rewrite Z.land_lor_distr_l, H. apply Z.lor_0_r.
Qed.

Lemma land_set_keeps (b x y : Z) : Z.land b y <> 0 -> Z.land (Z.lor b x) y <> 0.
Proof.
  intros Hb. rewrite Z.land_lor_distr_l.
  intros H. apply Z.lor_eq_0_iff in H. tauto.
Qed.

Lemma attach_inv_step (ev : event) (st : wifi_state) :
  0 <= M -> attach_inv M st -> attach_inv M (event_handler M ev st).
Proof.
  intros HM (Hr & Hc & Hf). unfold attach_inv.
  handler_cases ev st;
    try (apply Z.ltb_lt in Heqb); try (apply Z.ltb_ge in Heqb);
    repeat split; try lia; intros Hbit;
    try (rewrite land_set_other in Hbit by reflexivity);
    try (apply Hf in Hbit); lia.
Qed.

Lemma attach_inv_dispatch (evs : list event) :
  forall st, 0 <= M -> attach_inv M st -> attach_inv M (dispatch M evs st).
Proof.
  induction evs as [|ev evs IH]; intros st HM Hinv; [exact Hinv|].
  cbn [dispatch fold_left]. apply IH; [exact HM|].
  apply attach_inv_step; assumption.
Qed.

Lemma attach_inv_boot : 0 <= M -> attach_inv M wifi_boot.
Proof.
  intros HM. unfold attach_inv, wifi_boot. cbn.
  repeat split; try lia; try contradiction.
Qed.

(** The state in which a wait returns is the one reached by dispatching a
    prefix of the events, and it has a terminal flag up. *)
Lemma wait_returns_after_prefix (evs : list event) :
  forall st bits st',
    xEventGroupWaitBits M mask evs st = Some (bits, st') ->
    exists pre post,
      evs = pre ++ post
      /\ st' = dispatch M pre st
      /\ bits = s_wifi_event_group st'
      /\ Z.land bits mask <> 0.
Proof.
  induction evs as [|ev evs IH]; intros st bits st' H; cbn [xEventGroupWaitBits] in H.
  - destruct (Z.land (s_wifi_event_group st) mask =? 0) eqn:E; [discriminate|].
    injection H as <- <-. exists [], []. repeat split.
    apply Z.eqb_neq. exact E.
  - destruct (Z.land (s_wifi_event_group st) mask =? 0) eqn:E.
    + destruct (IH _ _ _ H) as (pre & post & -> & -> & -> & Hm).
      exists (ev :: pre), post. repeat split. exact Hm.
    + injection H as <- <-. exists [], (ev :: evs). repeat split.
      apply Z.eqb_neq. exact E.
Qed.

Lemma dispatch_app (evs evs' : list event) (st : wifi_state) :
  dispatch M (evs ++ evs') st = dispatch M evs' (dispatch M evs st).
Proof. unfold dispatch. apply fold_left_app. Qed.

(** Every log line of the handler is informational. *)
Lemma handler_log_info (ev : event) (st : wifi_state) :
  Forall (fun e => fst e = ESP_LOG_INFO) (wifi_log st) ->
  Forall (fun e => fst e = ESP_LOG_INFO) (wifi_log (event_handler M ev st)).
Proof.
  intros H. handler_cases ev st;
    repeat (apply Forall_app; split); try assumption;
    repeat constructor.
Qed.

Lemma dispatch_log_info (evs : list event) :
  forall st,
    Forall (fun e => fst e = ESP_LOG_INFO) (wifi_log st) ->
    Forall (fun e => fst e = ESP_LOG_INFO) (wifi_log (dispatch M evs st)).
Proof.
  induction evs as [|ev evs IH]; intros st H; [exact H|].
  cbn [dispatch fold_left]. apply IH. apply handler_log_info. exact H.
Qed.

(** Flags are only ever set. *)
Lemma handler_keeps_flags (ev : event) (st : wifi_state) (b : Z) :
  Z.land (s_wifi_event_group st) b <> 0 ->
  Z.land (s_wifi_event_group (event_handler M ev st)) b <> 0.
Proof.
  intros H. handler_cases ev st; try assumption; apply land_set_keeps; exact H.
Qed.

(** An event that is neither a disconnect nor an address acquisition leaves
    the flags as they are. *)
Lemma handler_quiet (ev : event) (st : wifi_state) :
  is_disconnected ev = false -> is_got_ip ev = false ->
  s_wifi_event_group (event_handler M ev st) = s_wifi_event_group st.
Proof.
  unfold is_disconnected, is_got_ip. intros Hd Hg.
  unfold event_handler. rewrite Hd, Hg.
  destruct (esp_event_base_eqb (event_base ev) WIFI_EVENT
            && (event_id ev =? WIFI_EVENT_STA_START)); reflexivity.
Qed.

(** Without an address acquisition the connected flag stays down. *)
Lemma handler_no_ip (ev : event) (st : wifi_state) :
  is_got_ip ev = false ->
  Z.land (s_wifi_event_group st) WIFI_CONNECTED_BIT = 0 ->
  Z.land (s_wifi_event_group (event_handler M ev st)) WIFI_CONNECTED_BIT = 0.
Proof.
  unfold is_got_ip. intros Hg Hb. unfold event_handler. rewrite Hg.
  destruct (esp_event_base_eqb (event_base ev) WIFI_EVENT
            && (event_id ev =? WIFI_EVENT_STA_START)); [exact Hb|].
  destruct (esp_event_base_eqb (event_base ev) WIFI_EVENT
            && (event_id ev =? WIFI_EVENT_STA_DISCONNECTED)); [|exact Hb].
  destruct (s_retry_num st <? M); cbn; [exact Hb|].
  rewrite land_set_other by reflexivity. exact Hb.
Qed.

End WifiInvariants.

Section WifiExtras.

Import Wifi Startup.
Local Open Scope Z_scope.

Local Abbreviation mask := (Z.lor WIFI_CONNECTED_BIT WIFI_FAIL_BIT).

(** X1.  From start-up on, whatever events are dispatched, the retry
    counter stays between 0 and the retry limit and never exceeds the
    number of connection attempts issued. *)
Theorem retry_counter_in_range (maxRetries : Z) (evs : list event) :
  0 <= maxRetries ->
  let st := dispatch maxRetries evs wifi_boot in
  0 <= s_retry_num st <= maxRetries
  /\ s_retry_num st <= Z.of_nat (connect_calls st).
Proof.
  intros HM st.
  destruct (attach_inv_dispatch maxRetries evs wifi_boot HM
              (attach_inv_boot maxRetries HM)) as (Hr & Hc & _).
  split; assumption.
Qed.

Lemma retry_counter_in_range_witness :
  let st := dispatch 2 [ev_start; ev_disconnected; ev_disconnected;
                        ev_disconnected; ev_got_ip; ev_disconnected]
              wifi_boot in
  0 <= s_retry_num st <= 2 /\ s_retry_num st <= Z.of_nat (connect_calls st).
Proof.
  apply (retry_counter_in_range 2
           [ev_start; ev_disconnected; ev_disconnected;
            ev_disconnected; ev_got_ip; ev_disconnected]).
  lia.
Defined.

(** X2.  The attach call returns [ESP_FAIL] only after at least
    [maxRetries] connection attempts were issued, whatever the events and
    their order. *)
Theorem attach_fails_only_after_retries
    (maxRetries : Z) (early evs : list event) (st : wifi_state) :
  0 <= maxRetries ->
  wifi_init_sta maxRetries early evs = Some (ESP_FAIL, st) ->
  maxRetries <= Z.of_nat (connect_calls st).
Proof.
  intros HM H. unfold wifi_init_sta in H.
  destruct (xEventGroupWaitBits maxRetries mask evs
              (dispatch maxRetries early wifi_boot))
    as [[bits st']|] eqn:Hw; [|discriminate].
  destruct (wait_returns_after_prefix _ _ _ _ _ Hw)
    as (pre & post & _ & Hst & Hbits & Hmask).
  assert (Hinv : attach_inv maxRetries st').
  { rewrite Hst. apply attach_inv_dispatch; [exact HM|].
    apply attach_inv_dispatch; [exact HM|]. apply attach_inv_boot. exact HM. }
  destruct Hinv as (_ & _ & Hf).
  pose proof (attach_result_code bits st') as Hcode.
  destruct (attach_result_calls bits st') as (Hcalls & _).
  injection H as H. rewrite H in Hcode, Hcalls. cbn [fst snd] in Hcode, Hcalls.
  destruct (Z.land bits WIFI_CONNECTED_BIT =? 0) eqn:Ec;
    cbn [negb] in Hcode; [|discriminate].
  apply Z.eqb_eq in Ec.
  rewrite Z.land_lor_distr_r, Ec, Z.lor_0_l in Hmask.
  rewrite Hcalls. apply Hf. rewrite <- Hbits. exact Hmask.
Qed.

Lemma attach_fails_only_after_retries_witness :
  3 <= Z.of_nat
         (connect_calls
            (wifi_logi "Failed to connect to SSID:%s, password:%s"
               (dispatch 3 [ev_start; ev_disconnected; ev_disconnected;
                            ev_disconnected; ev_disconnected] wifi_boot))).
Proof.
  apply (attach_fails_only_after_retries 3 [ev_start]
           [ev_disconnected; ev_disconnected; ev_disconnected;
            ev_disconnected; ev_got_ip]).
  - lia.
  - reflexivity.
Defined.

Lemma wifi_init_sta_outcome
    (maxRetries : Z) (early evs : list event) (rc : esp_err_t)
    (st : wifi_state) :
  wifi_init_sta maxRetries early evs = Some (rc, st) ->
  ((rc = ESP_OK /\ Z.land (s_wifi_event_group st) WIFI_CONNECTED_BIT <> 0)
   \/ (rc = ESP_FAIL
       /\ Z.land (s_wifi_event_group st) WIFI_CONNECTED_BIT = 0
       /\ Z.land (s_wifi_event_group st) WIFI_FAIL_BIT <> 0))
  /\ Forall (fun e => fst e = ESP_LOG_INFO) (wifi_log st).
Proof.
  intros H. unfold wifi_init_sta in H.
  destruct (xEventGroupWaitBits maxRetries mask evs
              (dispatch maxRetries early wifi_boot))
    as [[bits st']|] eqn:Hw; [|discriminate].
  destruct (wait_returns_after_prefix _ _ _ _ _ Hw)
    as (pre & post & _ & Hst & Hbits & Hmask).
  assert (Hlog : Forall (fun e => fst e = ESP_LOG_INFO) (wifi_log st')).
  { rewrite Hst. apply dispatch_log_info. apply dispatch_log_info.
    constructor. }
  injection H as H. unfold attach_result in H.
  destruct (Z.land bits WIFI_CONNECTED_BIT =? 0) eqn:Ec; cbn [negb] in H.
  - apply Z.eqb_eq in Ec.
    rewrite Z.land_lor_distr_r, Ec, Z.lor_0_l in Hmask.
    apply Z.eqb_neq in Hmask. rewrite Hmask in H. cbn [negb] in H.
    apply Z.eqb_neq in Hmask.
    injection H as <- <-. split.
    + right. cbn. rewrite <- Hbits. auto.
    + cbn. apply Forall_app. split; [exact Hlog | repeat constructor].
  - apply Z.eqb_neq in Ec. injection H as <- <-. split.
    + left. cbn. rewrite <- Hbits. auto.
    + cbn. apply Forall_app. split; [exact Hlog | repeat constructor].
Qed.

(** X3.  When the attach call returns, it returns [ESP_OK] with the
    connected flag up, or [ESP_FAIL] with the connected flag down and the
    failed flag up; the branch that logs ["UNEXPECTED EVENT"] is never
    taken, and no error line is in the log. *)
Theorem attach_outcome_is_a_flag
    (maxRetries : Z) (early evs : list event) (rc : esp_err_t)
    (st : wifi_state) :
  wifi_init_sta maxRetries early evs = Some (rc, st) ->
  ((rc = ESP_OK /\ Z.land (s_wifi_event_group st) WIFI_CONNECTED_BIT <> 0)
   \/ (rc = ESP_FAIL
       /\ Z.land (s_wifi_event_group st) WIFI_CONNECTED_BIT = 0
       /\ Z.land (s_wifi_event_group st) WIFI_FAIL_BIT <> 0))
  /\ Forall (fun e => fst e = ESP_LOG_INFO) (wifi_log st).
Proof. apply wifi_init_sta_outcome. Qed.

Lemma attach_outcome_is_a_flag_witness :
  exists st,
    ((ESP_FAIL = ESP_OK /\ Z.land (s_wifi_event_group st) WIFI_CONNECTED_BIT <> 0)
     \/ (ESP_FAIL = ESP_FAIL
         /\ Z.land (s_wifi_event_group st) WIFI_CONNECTED_BIT = 0
         /\ Z.land (s_wifi_event_group st) WIFI_FAIL_BIT <> 0))
    /\ Forall (fun e => fst e = ESP_LOG_INFO) (wifi_log st).
Proof.
  eexists.
  apply (attach_outcome_is_a_flag 0 [ev_start] [ev_disconnected] ESP_FAIL).
  reflexivity.
Defined.

(** X5.  The attach call has no time-out: as long as the events posted are
    neither disconnects nor address acquisitions, it does not return. *)
Theorem attach_waits_without_terminal_event
    (maxRetries : Z) (early evs : list event) :
  forallb (fun ev => negb (is_disconnected ev) && negb (is_got_ip ev))
    (early ++ evs) = true ->
  wifi_init_sta maxRetries early evs = None.
Proof.
  intros H. rewrite forallb_app in H. apply andb_prop in H.
  destruct H as [He Hv].
  unfold wifi_init_sta.
  assert (Hb : s_wifi_event_group (dispatch maxRetries early wifi_boot) = 0).
  { assert (G : forall st, s_wifi_event_group st = 0 ->
                           s_wifi_event_group (dispatch maxRetries early st) = 0).
    { induction early as [|ev early IH]; intros st Hst; [exact Hst|].
      cbn [forallb] in He. apply andb_prop in He. destruct He as [Hq He].
      apply andb_prop in Hq. destruct Hq as [Hd Hg].
      apply negb_true_iff in Hd. apply negb_true_iff in Hg.
      cbn [dispatch fold_left]. apply (IH He).
      rewrite handler_quiet; assumption. }
    apply G. reflexivity. }
  revert Hb. generalize (dispatch maxRetries early wifi_boot) as st.
  induction evs as [|ev evs IH]; intros st Hst; cbn [xEventGroupWaitBits];
    rewrite Hst; cbn [Z.land Z.eqb negb]; [reflexivity|].
  cbn [forallb] in Hv. apply andb_prop in Hv. destruct Hv as [Hq Hv].
  apply andb_prop in Hq. destruct Hq as [Hd Hg].
  apply negb_true_iff in Hd. apply negb_true_iff in Hg.
  apply (IH Hv). rewrite handler_quiet; assumption.
Qed.

Lemma attach_waits_without_terminal_event_witness :
  wifi_init_sta 5 [ev_start] [mkEvent WIFI_EVENT 4; ev_start] = None.
Proof.
  apply (attach_waits_without_terminal_event 5 [ev_start]
           [mkEvent WIFI_EVENT 4; ev_start]).
  reflexivity.
Defined.

(** X6.  The attach call never returns [ESP_OK] unless an
    address-acquired event is among the events posted. *)
Theorem attach_success_needs_address
    (maxRetries : Z) (early evs : list event) (st : wifi_state) :
  wifi_init_sta maxRetries early evs = Some (ESP_OK, st) ->
  existsb is_got_ip (early ++ evs) = true.
Proof.
  intros H.
  destruct (existsb is_got_ip (early ++ evs)) eqn:E; [reflexivity|exfalso].
  destruct (wifi_init_sta_outcome _ _ _ _ _ H) as ([(_ & Hc)|(Hrc & _)] & _);
    [|discriminate].
  unfold wifi_init_sta in H.
  destruct (xEventGroupWaitBits maxRetries mask evs
              (dispatch maxRetries early wifi_boot))
    as [[bits st']|] eqn:Hw; [|discriminate].
  destruct (wait_returns_after_prefix _ _ _ _ _ Hw)
    as (pre & post & Hevs & Hst & Hbits & _).
  destruct (attach_result_calls bits st') as (_ & _ & Hg).
  injection H as H. rewrite H in Hg. cbn [snd] in Hg.
  rewrite Hg, Hst, <- dispatch_app in Hc. apply Hc.
  assert (Hno : existsb is_got_ip (early ++ pre) = false).
  { rewrite Hevs, app_assoc, existsb_app in E.
    apply orb_false_iff in E. tauto. }
  revert Hno. generalize (early ++ pre) as l.
  assert (G : forall l st0,
             Z.land (s_wifi_event_group st0) WIFI_CONNECTED_BIT = 0 ->
             existsb is_got_ip l = false ->
             Z.land (s_wifi_event_group (dispatch maxRetries l st0))
               WIFI_CONNECTED_BIT = 0).
  { induction l as [|ev l IH]; intros st0 Hst0 Hl; [exact Hst0|].
    cbn [existsb] in Hl. apply orb_false_iff in Hl. destruct Hl as [Hev Hl].
    cbn [dispatch fold_left]. apply IH; [|exact Hl].
    apply handler_no_ip; assumption. }
  intros l Hl. apply G; [reflexivity | exact Hl].
Qed.

Lemma attach_success_needs_address_witness :
  existsb is_got_ip ([ev_start] ++ [ev_disconnected; ev_got_ip]) = true.
Proof.
  apply (attach_success_needs_address 5 [ev_start]
           [ev_disconnected; ev_got_ip]
           (wifi_logi "connected to ap SSID:%s password:%s"
              (dispatch 5 [ev_start; ev_disconnected; ev_got_ip] wifi_boot))).
  reflexivity.
Defined.

(** X7.  The handler only ever sets flags: a flag that is up stays up
    through every later event. *)
Theorem handler_never_clears_a_flag
    (maxRetries : Z) (evs : list event) (st : wifi_state) (flag : Z) :
  Z.land (s_wifi_event_group st) flag <> 0 ->
  Z.land (s_wifi_event_group (dispatch maxRetries evs st)) flag <> 0.
Proof.
  revert st. induction evs as [|ev evs IH]; intros st H; [exact H|].
  cbn [dispatch fold_left]. apply IH. apply handler_keeps_flags. exact H.
Qed.

Lemma handler_never_clears_a_flag_witness :
  Z.land (s_wifi_event_group
            (dispatch 1 [ev_disconnected; ev_disconnected; ev_start]
               (dispatch 1 [ev_got_ip] wifi_boot)))
    WIFI_CONNECTED_BIT <> 0.
Proof.
  apply (handler_never_clears_a_flag 1
           [ev_disconnected; ev_disconnected; ev_start]
           (dispatch 1 [ev_got_ip] wifi_boot) WIFI_CONNECTED_BIT).
  vm_compute. discriminate.
Defined.

End WifiExtras.

(** ** Host rewriting *)

Section ResolverExtras.

Import Mdns Startup.
Local Open Scope string_scope.

(** X8.  When [query_mdns_host] returns [ESP_OK], the text it has written
    into [ip] is made of digits and dots and is 7 to 15 characters long:
    with its terminator it stays inside the 128 chars of the caller's
    array. *)
Theorem query_writes_short_address
    (mdns_query_a : string -> Z -> esp_err_t * Z) (host ip : string) :
  q_ret (query_mdns_host mdns_query_a host ip) = ESP_OK ->
  7 <= String.length (q_ip (query_mdns_host mdns_query_a host ip)) <= 15
  /\ all_chars ip_char (q_ip (query_mdns_host mdns_query_a host ip)) = true
  /\ strcpy_fits 128 (q_ip (query_mdns_host mdns_query_a host ip)) = true.
Proof.
  intros Hok.
  destruct (Z.eq_dec (fst (mdns_query_a host 10000%Z)) 0) as [E|E].
  - destruct (query_mdns_host_resolved mdns_query_a host ip E) as (_ & ->).
    destruct (sprintf_IPSTR_shape (snd (mdns_query_a host 10000%Z))) as (Hl & Hc).
    split; [exact Hl|]. split; [exact Hc|].
    apply strcpy_fits_lt. lia.
  - destruct (query_mdns_host_failed mdns_query_a host ip E) as (Hf & _).
    rewrite Hf in Hok. discriminate.
Qed.

Lemma query_writes_short_address_witness :
  let r := query_mdns_host
             (mdns_directory [("printer", 4294967295%Z)]) "printer" "" in
  7 <= String.length (q_ip r) <= 15
  /\ all_chars ip_char (q_ip r) = true
  /\ strcpy_fits 128 (q_ip r) = true.
Proof.
  apply (query_writes_short_address
           (mdns_directory [("printer", 4294967295%Z)]) "printer" "").
  reflexivity.
Defined.

(** X9.  As long as the array [_ip] holds a zero char within its 128
    chars, so that the [%s] of line 182 stays inside it, what [_ip] holds
    before the query never reaches the output: [convert_mdns_host] gives
    the same result for any two such initial contents. *)
Theorem convert_ignores_stale_ip
    (mdns_query_a : string -> Z -> esp_err_t * Z) (ip0 ip0' from : string) :
  String.length ip0 < 128 ->
  String.length ip0' < 128 ->
  convert_mdns_host mdns_query_a ip0 from
  = convert_mdns_host mdns_query_a ip0' from.
Proof.
  intros H0 H0'.
  destruct (strstr from ".local") as [n|] eqn:Hs.
  - destruct (Nat.lt_ge_cases (String.length from) 128) as [Hlen|Hlen].
    + rewrite !(convert_mdns_host_found mdns_query_a _ from n Hs Hlen).
      rewrite (terminated_in_lt 128 ip0 H0), (terminated_in_lt 128 ip0' H0').
      reflexivity.
    + unfold convert_mdns_host, strcpy_fits. rewrite Hs.
      assert (E : Nat.ltb (String.length from) 128 = false)
        by (apply Nat.ltb_ge; exact Hlen).
      rewrite E. reflexivity.
  - unfold convert_mdns_host. rewrite Hs. reflexivity.
Qed.

Lemma convert_ignores_stale_ip_witness :
  convert_mdns_host (mdns_failing ESP_ERR_TIMEOUT) "" "broker.local"
  = convert_mdns_host (mdns_failing ESP_ERR_TIMEOUT) "192.168.4.1"
      "broker.local".
Proof.
  apply (convert_ignores_stale_ip (mdns_failing ESP_ERR_TIMEOUT)
           "" "192.168.4.1" "broker.local"); simpl; lia.
Defined.

(** X10.  [convert_mdns_host] asks the resolver only for names that hold
    no [".local"], with the time-out 10000: two resolvers that agree on
    those queries give the same rewriting of every text. *)
Theorem convert_queries_bare_names
    (mdns1 mdns2 : string -> Z -> esp_err_t * Z) (_ip0 from : string) :
  (forall name, strstr name ".local" = None ->
                mdns1 name 10000%Z = mdns2 name 10000%Z) ->
  convert_mdns_host mdns1 _ip0 from = convert_mdns_host mdns2 _ip0 from.
Proof.
  intros Hagree. unfold convert_mdns_host.
  destruct (strstr from ".local") as [n|] eqn:Hs; [|reflexivity].
  destruct (strcpy_fits 128 from); [|reflexivity].
  assert (Hfree : strstr (substring 0 n from) ".local" = None)
    by (apply strstr_cut_free; [simpl; lia | exact Hs]).
  unfold query_mdns_host. rewrite (Hagree _ Hfree). reflexivity.
Qed.

Lemma convert_queries_bare_names_witness :
  convert_mdns_host (mdns_directory [("broker", addr_10_0_0_5)]) ""
    "broker.local"
  = convert_mdns_host
      (mdns_directory [("broker", addr_10_0_0_5);
                       ("broker.local", 16777343%Z)]) ""
      "broker.local".
Proof.
  apply (convert_queries_bare_names
           (mdns_directory [("broker", addr_10_0_0_5)])
           (mdns_directory [("broker", addr_10_0_0_5);
                            ("broker.local", 16777343%Z)])
           "" "broker.local").
  intros name Hname. unfold mdns_directory. cbn [find fst snd].
  destruct (String.eqb "broker" name); [reflexivity|].
  destruct (String.eqb "broker.local" name) eqn:E; [|reflexivity].
  apply String.eqb_eq in E. subst name. vm_compute in Hname. discriminate.
Defined.

Lemma convert_defined_fits
    (mdns_query_a : string -> Z -> esp_err_t * Z) (_ip0 from out : string)
    (n : nat) :
  strstr from ".local" = Some n ->
  convert_mdns_host mdns_query_a _ip0 from = Some out ->
  String.length from < 128.
Proof.
  intros Hs H. unfold convert_mdns_host in H. rewrite Hs in H.
  unfold strcpy_fits in H.
  destruct (Nat.ltb (String.length from) 128) eqn:E; [|discriminate].
  apply Nat.ltb_lt. exact E.
Qed.



(** X12.  The text left in [to] is never longer than the longer of the
    input and a 15-character address: an array of
    [max(strlen(from), 15) + 1] chars holds it. *)
Theorem convert_output_bounded
    (mdns_query_a : string -> Z -> esp_err_t * Z) (_ip0 from out : string) :
  convert_mdns_host mdns_query_a _ip0 from = Some out ->
  String.length out <= Nat.max (String.length from) 15.
Proof.
  intros H.
  destruct (strstr from ".local") as [n|] eqn:Hs.
  - pose proof (convert_defined_fits _ _ _ _ _ Hs H) as Hlen.
    rewrite (convert_mdns_host_found mdns_query_a _ip0 from n Hs Hlen) in H.
    destruct (fst (mdns_query_a (substring 0 n from) 10000%Z) =? 0)%Z;
      [|destruct (terminated_in 128 _ip0); [|discriminate]];
      injection H as <-; [|lia].
    destruct (sprintf_IPSTR_shape
                (snd (mdns_query_a (substring 0 n from) 10000%Z)))
      as (Hl & _).
    lia.
  - unfold convert_mdns_host in H. rewrite Hs in H. injection H as <-. lia.
Qed.

Lemma convert_output_bounded_witness :
  String.length "10.0.0.5" <= Nat.max (String.length "a.local") 15.
Proof.
  apply (convert_output_bounded (mdns_directory [("a", addr_10_0_0_5)]) ""
           "a.local" "10.0.0.5").
  reflexivity.
Defined.

End ResolverExtras.

(** ** The radio tasks *)

Section FrameFacts.

Import MessageBuffer Mirf Bridge Startup.
Local Open Scope list_scope.

Lemma strlen_text (f : list byte) :
  forall n, strlen f = Some n ->
            firstn n f = text_of f /\ List.length (text_of f) = n.
Proof.
  induction f as [|b f IH]; intros n H; cbn [strlen] in H; [discriminate|].
  cbn [text_of]. destruct (Byte.eqb b x00).
  - injection H as <-. split; reflexivity.
  - destruct (strlen f) as [k|]; [|discriminate].
    cbn [option_map] in H. injection H as <-.
    destruct (IH k eq_refl) as (H1 & H2).
    cbn [firstn List.length]. rewrite H1, H2. split; reflexivity.
Qed.

Lemma text_of_nonzero (f : list byte) : forallb nonzero (text_of f) = true.
Proof.
  induction f as [|b f IH]; [reflexivity|].
  cbn [text_of]. destruct (Byte.eqb b x00) eqn:E; [reflexivity|].
  cbn [forallb]. unfold nonzero at 1. rewrite E, IH. reflexivity.
Qed.


Lemma strlen_all_nonzero (f : list byte) :
  forallb nonzero f = true -> strlen f = None.
Proof.
  induction f as [|b f IH]; intros H; [reflexivity|].
  cbn [forallb] in H. apply andb_prop in H. destruct H as [Hb Hf].
  unfold nonzero in Hb. apply negb_true_iff in Hb.
  cbn [strlen]. rewrite Hb, (IH Hf). reflexivity.
Qed.



Lemma is_text_of_strlen (buf : list byte) (n : nat) :
  List.length buf = xItemSize -> strlen buf = Some n ->
  is_text (firstn n buf) = true.
Proof.
  intros Hlen Hs. destruct (strlen_text buf n Hs) as (-> & Hn).
  unfold is_text. rewrite text_of_nonzero, andb_true_r.
  apply Nat.ltb_lt. pose proof (strlen_bound buf n Hs). lia.
Qed.

(** What a cycle leaves of the task's own arrays. *)
Lemma getData_keeps_shape (dev dev' : NRF24_t) (buf buf' : list byte) :
  dev_payload dev = payload ->
  List.length buf = xItemSize ->
  Nrf24_getData dev buf = (dev', buf') ->
  dev_payload dev' = payload /\ List.length buf' = xItemSize.
Proof.
  intros Hp Hb H. unfold Nrf24_getData in H.
  destruct (rx_fifo dev) as [|f rest]; injection H as <- <-.
  - auto.
  - split; [exact Hp|]. rewrite store_length; [exact Hb|].
    rewrite length_firstn, Hp, Hb. unfold payload, xItemSize. lia.
Qed.

End FrameFacts.

Section ReceiverExtras.

Import MessageBuffer Mirf Bridge Startup.
Local Open Scope string_scope.
Local Open Scope list_scope.

(** X13.  A 32-byte frame without a zero byte makes the length scan run
    past the end of [buf]: the cycle that drains it has no defined
    outcome, and neither has the loop from there on. *)
Theorem receiver_overruns_on_full_frame (st : rx_state) (frame : list byte)
    (rest : list (list byte)) (more : nat) :
  rx_fifo (rx_dev st) = frame :: rest ->
  dev_payload (rx_dev st) = payload ->
  List.length frame = payload ->
  List.length (rx_buf st) = xItemSize ->
  forallb nonzero frame = true ->
  receiver_cycle st = Fault /\ receiver_loop (S more) st = Undefined.
Proof.
  intros Hfifo Hpay Hlen Hbuf Hnz.
  assert (Hc : receiver_cycle st = Fault).
  { unfold receiver_cycle, Nrf24_dataReady, Nrf24_getData.
    rewrite Hfifo, Hpay, <- Hlen, firstn_all, store_whole
      by (rewrite Hlen, Hbuf; reflexivity).
    rewrite (strlen_all_nonzero frame Hnz). reflexivity. }
  split; [exact Hc|]. cbn [receiver_loop]. rewrite Hc. reflexivity.
Qed.

Lemma receiver_overruns_on_full_frame_witness :
  receiver_cycle (rx_sample [frame_full; frame_hello] 1024) = Fault
  /\ receiver_loop 4 (rx_sample [frame_full; frame_hello] 1024) = Undefined.
Proof.
  apply (receiver_overruns_on_full_frame
           (rx_sample [frame_full; frame_hello] 1024) frame_full
           [frame_hello] 3); reflexivity.
Defined.

(** One cycle keeps the shape of the task's data and puts only texts in
    the uplink buffer. *)
Lemma receiver_cycle_keeps_texts (st st' : rx_state) :
  dev_payload (rx_dev st) = payload ->
  List.length (rx_buf st) = xItemSize ->
  forallb is_text (messages (xMessageBufferTrans st)) = true ->
  receiver_cycle st = Continue st' \/ receiver_cycle st = Break st' ->
  dev_payload (rx_dev st') = payload
  /\ List.length (rx_buf st') = xItemSize
  /\ forallb is_text (messages (xMessageBufferTrans st')) = true.
Proof.
  intros Hpay Hbuf Htxt Hc. unfold receiver_cycle in Hc.
  destruct (Nrf24_dataReady (rx_dev st)).
  - destruct (Nrf24_getData (rx_dev st) (rx_buf st)) as [dev buf] eqn:Hget.
    destruct (getData_keeps_shape _ _ _ _ Hpay Hbuf Hget) as (Hpay' & Hbuf').
    destruct (strlen buf) as [n|] eqn:Hs;
      [|destruct Hc as [Hc|Hc]; discriminate].
    pose proof (is_text_of_strlen buf n Hbuf' Hs) as Hnew.
    unfold xMessageBufferSend in Hc.
    destruct (n <=? xMessageBufferSpacesAvailable (xMessageBufferTrans st))%nat;
      destruct (negb (Nat.eqb _ n));
      destruct Hc as [Hc|Hc]; try discriminate;
      injection Hc as <-; cbn [rx_dev rx_buf xMessageBufferTrans messages];
      repeat split; try assumption;
      rewrite forallb_app, Htxt; cbn [forallb]; rewrite Hnew; reflexivity.
  - destruct Hc as [Hc|Hc]; [|discriminate].
    injection Hc as <-. auto.
Qed.

(** One cycle on a FIFO of 32-byte frames that each hold a zero byte
    reaches the end of the loop body or the [break], and leaves such a
    FIFO. *)
Lemma receiver_cycle_defined (st : rx_state) :
  dev_payload (rx_dev st) = payload ->
  List.length (rx_buf st) = xItemSize ->
  Forall (fun f => List.length f = payload /\ strlen f <> None)
    (rx_fifo (rx_dev st)) ->
  exists st',
    (receiver_cycle st = Continue st' \/ receiver_cycle st = Break st')
    /\ Forall (fun f => List.length f = payload /\ strlen f <> None)
         (rx_fifo (rx_dev st')).
Proof.
  intros Hpay Hbuf Hall.
  destruct (rx_fifo (rx_dev st)) as [|f rest] eqn:Hfifo.
  - exists st. unfold receiver_cycle, Nrf24_dataReady. rewrite Hfifo.
    split; [left; reflexivity | constructor].
  - inversion Hall as [|f' r' (Hlen & Hsome) Hrest E]; subst f' r'.
    destruct (strlen f) as [n|] eqn:Hs; [clear Hsome | contradiction].
    pose proof (receiver_cycle_frame st f rest n Hfifo Hpay Hlen Hbuf Hs) as Hc.
    cbv zeta in Hc.
    destruct (negb (Nat.eqb
                (snd (xMessageBufferSend (xMessageBufferTrans st) f n 100%Z))
                n));
      eexists; (split; [ (left; exact Hc) || (right; exact Hc) |]);
      exact Hrest.
Qed.

(** X14.  When the frames waiting in the transceiver are 32 bytes long and
    each holds a zero byte, the length scan of the receiver never leaves
    [buf], and every message the receiver leaves in the uplink buffer is a
    text: at most 31 bytes long and free of zero bytes.  This holds after
    any number of cycles, whether the task is then still in its loop or
    has been deleted. *)
Theorem receiver_forwards_only_texts (n : nat) (st : rx_state) :
  dev_payload (rx_dev st) = payload ->
  List.length (rx_buf st) = xItemSize ->
  Forall (fun f => List.length f = payload /\ strlen f <> None)
    (rx_fifo (rx_dev st)) ->
  forallb is_text (messages (xMessageBufferTrans st)) = true ->
  exists st',
    (receiver_loop n st = Looping st' \/ receiver_loop n st = Deleted st')
    /\ forallb is_text (messages (xMessageBufferTrans st')) = true.
Proof.
  revert st. induction n as [|n IH]; intros st Hpay Hbuf Hall Htxt;
    cbn [receiver_loop].
  - exists st. split; [left; reflexivity | exact Htxt].
  - destruct (receiver_cycle_defined st Hpay Hbuf Hall) as (st1 & Hc & Hall1).
    destruct (receiver_cycle_keeps_texts st st1 Hpay Hbuf Htxt Hc)
      as (Hp1 & Hb1 & Ht1).
    destruct Hc as [Hc|Hc]; rewrite Hc.
    + apply (IH st1 Hp1 Hb1 Hall1 Ht1).
    + exists st1. split; [right; reflexivity | exact Ht1].
Qed.

Lemma receiver_forwards_only_texts_witness :
  exists st',
    (receiver_loop 5 (rx_sample [frame_A_nul_B; frame_hello] 1024) = Looping st'
     \/ receiver_loop 5 (rx_sample [frame_A_nul_B; frame_hello] 1024)
        = Deleted st')
    /\ forallb is_text (messages (xMessageBufferTrans st')) = true.
Proof.
  apply (receiver_forwards_only_texts 5
           (rx_sample [frame_A_nul_B; frame_hello] 1024)).
  - reflexivity.
  - reflexivity.
  - repeat constructor; discriminate.
  - reflexivity.
Defined.

(** With nothing in the RX FIFO the loop turns without any effect. *)
Lemma receiver_loop_idle (n : nat) (st : rx_state) :
  rx_fifo (rx_dev st) = [] -> receiver_loop n st = Looping st.
Proof.
  intros H. induction n as [|n IH]; [reflexivity|].
  cbn [receiver_loop]. unfold receiver_cycle, Nrf24_dataReady.
  rewrite H. exact IH.
Qed.

Lemma bytes_used_snoc (cap : nat) (msgs : list (list byte)) (m : list byte) :
  bytes_used (mkMB cap (msgs ++ [m])) = bytes_used (mkMB cap msgs) + List.length m.
Proof.
  unfold bytes_used. cbn [messages].
  rewrite map_app, list_sum_app. simpl. lia.
Qed.

(** The frames waiting in the RX FIFO are forwarded one per cycle, oldest
    first. *)
Lemma receiver_loop_forwards (fs : list (list byte)) :
  forall (st : rx_state) (idle : nat),
    rx_fifo (rx_dev st) = fs ->
    dev_payload (rx_dev st) = payload ->
    List.length (rx_buf st) = xItemSize ->
    Forall (fun f => List.length f = payload /\ strlen f <> None) fs ->
    list_sum (map (fun f => List.length (text_of f)) fs)
      <= xMessageBufferSpacesAvailable (xMessageBufferTrans st) ->
    exists st',
      receiver_loop (List.length fs + idle) st = Looping st'
      /\ messages (xMessageBufferTrans st')
         = messages (xMessageBufferTrans st) ++ map text_of fs
      /\ rx_fifo (rx_dev st') = []
      /\ xBufferSizeBytes (xMessageBufferTrans st')
         = xBufferSizeBytes (xMessageBufferTrans st).
Proof.
  induction fs as [|f fs IH]; intros st idle Hfifo Hpay Hbuf Hall Hroom.
  - exists st. cbn [List.length Nat.add map]. rewrite app_nil_r.
    split; [apply receiver_loop_idle; exact Hfifo | auto].
  - inversion Hall as [|f' fs' (Hlen & Hsome) Hall' E]; subst f' fs'.
    destruct (strlen f) as [n|] eqn:Hs; [clear Hsome | contradiction].
    destruct (strlen_text f n Hs) as (Htext & Hn).
    cbn [map list_sum fold_right] in Hroom.
    fold (list_sum (map (fun f => List.length (text_of f)) fs)) in Hroom.
    rewrite Hn in Hroom.
    pose proof (receiver_cycle_frame st f fs n Hfifo Hpay Hlen Hbuf Hs) as Hc.
    cbv zeta in Hc. unfold xMessageBufferSend in Hc.
    assert (Hfit : (n <=? xMessageBufferSpacesAvailable (xMessageBufferTrans st))%nat
                   = true) by (apply Nat.leb_le; lia).
    rewrite Hfit in Hc. cbn [fst snd] in Hc. rewrite Nat.eqb_refl in Hc.
    cbn [negb] in Hc.
    match type of Hc with _ = Continue ?s => set (st1 := s) in * end.
    destruct (IH st1 idle) as (st' & Hloop & Hmsgs & Hempty & Hcap).
    + reflexivity.
    + reflexivity.
    + cbn. rewrite Hlen. reflexivity.
    + exact Hall'.
    + unfold st1. cbn [xMessageBufferTrans].
      unfold xMessageBufferSpacesAvailable in *.
      cbn [xBufferSizeBytes].
      rewrite bytes_used_snoc, length_firstn.
      assert (Hb : bytes_used (mkMB (xBufferSizeBytes (xMessageBufferTrans st))
                                 (messages (xMessageBufferTrans st)))
                   = bytes_used (xMessageBufferTrans st)) by reflexivity.
      rewrite Hb. pose proof (strlen_bound f n Hs). lia.
    + exists st'. cbn [List.length Nat.add receiver_loop]. rewrite Hc.
      split; [exact Hloop|]. split; [|split; [exact Hempty | exact Hcap]].
      rewrite Hmsgs. unfold st1. cbn [xMessageBufferTrans messages map].
      rewrite Htext, <- app_assoc. reflexivity.
Qed.

(** X15.  With room in the uplink buffer for all their texts, the 32-byte
    frames waiting in the transceiver, each holding a zero byte, are
    forwarded one per cycle and in the order of the RX FIFO; the cycles
    after the last one change nothing. *)
Theorem receiver_forwards_in_order (st : rx_state) (idle : nat) :
  dev_payload (rx_dev st) = payload ->
  List.length (rx_buf st) = xItemSize ->
  Forall (fun f => List.length f = payload /\ strlen f <> None)
    (rx_fifo (rx_dev st)) ->
  list_sum (map (fun f => List.length (text_of f)) (rx_fifo (rx_dev st)))
    <= xMessageBufferSpacesAvailable (xMessageBufferTrans st) ->
  exists st',
    receiver_loop (List.length (rx_fifo (rx_dev st)) + idle) st = Looping st'
    /\ messages (xMessageBufferTrans st')
       = messages (xMessageBufferTrans st) ++ map text_of (rx_fifo (rx_dev st))
    /\ rx_fifo (rx_dev st') = [].
Proof.
  intros Hpay Hbuf Hall Hroom.
  destruct (receiver_loop_forwards (rx_fifo (rx_dev st)) st idle
              eq_refl Hpay Hbuf Hall Hroom) as (st' & H1 & H2 & H3 & _).
  exists st'. auto.
Qed.

Lemma receiver_forwards_in_order_witness :
  exists st',
    receiver_loop (2 + 3) (rx_sample [frame_hello; frame_A_nul_B] 1024)
    = Looping st'
    /\ messages (xMessageBufferTrans st')
       = [] ++ map text_of [frame_hello; frame_A_nul_B]
    /\ rx_fifo (rx_dev st') = [].
Proof.
  apply (receiver_forwards_in_order
           (rx_sample [frame_hello; frame_A_nul_B] 1024) 3).
  - reflexivity.
  - reflexivity.
  - repeat constructor; discriminate.
  - vm_compute. lia.
Defined.

End ReceiverExtras.

Section StartExtras.

Import MessageBuffer Mirf Bridge Startup.
Local Open Scope string_scope.
Local Open Scope list_scope.

(** The clearing loop ends after one read per waiting frame. *)
Lemma clear_rx_fifo_ends (fuel : nat) :
  forall (dev : NRF24_t) (buf : list byte),
    dev_payload dev = payload ->
    List.length buf = xItemSize ->
    List.length (rx_fifo dev) < fuel ->
    exists buf',
      clear_rx_fifo fuel dev buf
      = Exited (mkDev payload [] (tx_frames dev) (tx_status dev), buf')
      /\ List.length buf' = xItemSize.
Proof.
  induction fuel as [|fuel IH]; intros dev buf Hpay Hbuf Hlen; [lia|].
  cbn [clear_rx_fifo]. unfold Nrf24_dataReady.
  destruct (rx_fifo dev) as [|f rest] eqn:Hfifo.
  - exists buf. cbn [negb]. destruct dev as [p q t s].
    cbn in Hpay, Hfifo |- *. subst. auto.
  - cbn [negb].
    destruct (Nrf24_getData dev buf) as [dev' buf'] eqn:Hget.
    destruct (getData_keeps_shape _ _ _ _ Hpay Hbuf Hget) as (Hpay' & Hbuf').
    unfold Nrf24_getData in Hget. rewrite Hfifo in Hget.
    injection Hget as Hdev _.
    destruct (IH dev' buf' Hpay' Hbuf') as (b & He & Hb).
    + rewrite <- Hdev. cbn. cbn in Hlen. lia.
    + exists b. rewrite He, <- Hdev. cbn. auto.
Qed.

Lemma receiver_start_drains (channel : Z) (fuel : nat) (st : rx_state) :
  List.length (rx_buf st) = xItemSize ->
  List.length (rx_fifo (rx_dev st)) < fuel ->
  exists st',
    receiver_start channel ESP_OK fuel st = Some (Looping st')
    /\ rx_fifo (rx_dev st') = []
    /\ xMessageBufferTrans st' = xMessageBufferTrans st
    /\ dev_payload (rx_dev st') = payload
    /\ List.length (rx_buf st') = xItemSize.
Proof.
  intros Hbuf Hfuel. unfold receiver_start. cbn [Z.eqb ESP_OK negb].
  destruct (clear_rx_fifo_ends fuel
              (Nrf24_config (rx_dev st) channel payload) (rx_buf st))
    as (buf' & He & Hb); [reflexivity | exact Hbuf | exact Hfuel |].
  rewrite He. eexists. split; [reflexivity|]. cbn. auto.
Qed.

(** X16.  Start of the receiver.  When [Nrf24_setRADDR] fails the task
    logs the error and stays in its idle loop: it reads no frame and
    sends nothing.  When it succeeds the clearing loop ends after one read
    per frame found in the RX FIFO, and the main loop is entered with the
    FIFO empty, the payload size set to 32 and the uplink buffer
    untouched: none of the frames found at start is forwarded. *)
Theorem receiver_start_drops_stale_frames
    (channel : Z) (rc : esp_err_t) (fuel : nat) (st : rx_state) :
  (rc <> ESP_OK ->
   exists st',
     receiver_start channel rc fuel st = Some (Blocked st')
     /\ rx_fifo (rx_dev st') = rx_fifo (rx_dev st)
     /\ xMessageBufferTrans st' = xMessageBufferTrans st
     /\ In (ESP_LOG_ERROR, "nrf24l01 not installed") (rx_log st'))
  /\
  (rc = ESP_OK ->
   List.length (rx_buf st) = xItemSize ->
   List.length (rx_fifo (rx_dev st)) < fuel ->
   exists st',
     receiver_start channel rc fuel st = Some (Looping st')
     /\ rx_fifo (rx_dev st') = []
     /\ xMessageBufferTrans st' = xMessageBufferTrans st
     /\ dev_payload (rx_dev st') = payload).
Proof.
  split.
  - intros Hrc. unfold receiver_start.
    apply Z.eqb_neq in Hrc. rewrite Hrc. cbn [negb].
    eexists. split; [reflexivity|]. cbn.
    repeat split. apply in_or_app. right. left. reflexivity.
  - intros -> Hbuf Hfuel.
    destruct (receiver_start_drains channel fuel st Hbuf Hfuel)
      as (st' & H1 & H2 & H3 & H4 & _).
    exists st'. auto.
Qed.

Lemma receiver_start_drops_stale_frames_witness :
  (exists st',
     receiver_start 90 ESP_FAIL 3 (rx_sample [frame_hello; frame_full] 1024)
     = Some (Blocked st')
     /\ rx_fifo (rx_dev st') = [frame_hello; frame_full])
  /\ (exists st',
        receiver_start 90 ESP_OK 3 (rx_sample [frame_hello; frame_full] 1024)
        = Some (Looping st')
        /\ rx_fifo (rx_dev st') = []
        /\ messages (xMessageBufferTrans st') = []).
Proof.
  destruct (receiver_start_drops_stale_frames 90 ESP_FAIL 3
              (rx_sample [frame_hello; frame_full] 1024)) as [Hfail _].
  destruct (receiver_start_drops_stale_frames 90 ESP_OK 3
              (rx_sample [frame_hello; frame_full] 1024)) as [_ Hok].
  split.
  - destruct (Hfail ltac:(discriminate)) as (st' & H1 & H2 & _).
    exists st'. split; [exact H1 | exact H2].
  - destruct (Hok eq_refl eq_refl ltac:(simpl; lia)) as (st' & H1 & H2 & H3 & _).
    exists st'. split; [exact H1|]. split; [exact H2|].
    rewrite H3. reflexivity.
Defined.





End StartExtras.

Section LoopExtras.

Import MessageBuffer Mirf Bridge Startup.
Local Open Scope string_scope.
Local Open Scope list_scope.

Lemma sender_cycle_keeps_frames (st st' : tx_state) :
  List.length (tx_buf st) = xItemSize ->
  dev_payload (tx_dev st) = payload ->
  Forall (fun f => List.length f = xItemSize) (tx_frames (tx_dev st)) ->
  sender_cycle st = Some st' ->
  List.length (tx_buf st') = xItemSize
  /\ dev_payload (tx_dev st') = payload
  /\ Forall (fun f => List.length f = xItemSize) (tx_frames (tx_dev st')).
Proof.
  intros Hbuf Hpay Hall Hc.
  destruct (xMessageBufferReceive (xMessageBufferRecv st)
              (List.length (tx_buf st)) portMAX_DELAY) as [[mb msg]|] eqn:Hrecv.
  - destruct (sender_cycle_received st mb msg Hbuf Hpay Hrecv)
      as (st1 & Hc1 & Hf & Hb & _ & _ & Hp & _).
    rewrite Hc in Hc1. injection Hc1 as <-.
    pose proof (receive_bound _ _ _ _ _ Hrecv) as Hle. rewrite Hbuf in Hle.
    rewrite Hb, Hf. split; [apply padded_length; exact Hle|].
    split; [exact Hp|]. apply Forall_app. split; [exact Hall|].
    constructor; [apply padded_length; exact Hle | constructor].
  - unfold sender_cycle in Hc. rewrite Hrecv in Hc. discriminate.
Qed.

(** X20.  Every frame the sender hands to the transceiver is exactly 32
    bytes long, whatever the length of the messages in the downlink buffer
    and whatever the array held before. *)
Theorem sender_frames_are_full_size (n : nat) (st st' : tx_state) :
  List.length (tx_buf st) = xItemSize ->
  dev_payload (tx_dev st) = payload ->
  Forall (fun f => List.length f = xItemSize) (tx_frames (tx_dev st)) ->
  sender_loop n st = Looping st' \/ sender_loop n st = Blocked st' ->
  Forall (fun f => List.length f = 32) (tx_frames (tx_dev st')).
Proof.
  revert st. induction n as [|n IH]; intros st Hbuf Hpay Hall Hl;
    cbn [sender_loop] in Hl.
  - destruct Hl as [Hl|Hl]; [|discriminate]. injection Hl as <-. exact Hall.
  - destruct (sender_cycle st) as [st1|] eqn:Hc.
    + destruct (sender_cycle_keeps_frames st st1 Hbuf Hpay Hall Hc)
        as (Hb1 & Hp1 & Ha1).
      apply (IH st1 Hb1 Hp1 Ha1 Hl).
    + destruct Hl as [Hl|Hl]; [discriminate|]. injection Hl as <-.
      cbn [tx_dev]. exact Hall.
Qed.

Lemma sender_frames_are_full_size_witness :
  Forall (fun f => List.length f = 32) [padded [x41]; padded [x42; x43]].
Proof.
  apply (sender_frames_are_full_size 2
           (tx_sample [[x41]; [x42; x43]] [false])
           (match sender_loop 2 (tx_sample [[x41]; [x42; x43]] [false]) with
            | Looping s => s
            | _ => tx_sample [] []
            end)).
  - reflexivity.
  - reflexivity.
  - constructor.
  - left. reflexivity.
Defined.

End LoopExtras.

(** ** [app_main] *)

Section AppMainExtras.

Import Wifi Startup.
Local Open Scope string_scope.
Local Open Scope list_scope.


(** X21.  [app_main] creates its tasks last: when it returns, the flash
    store was initialised (at once, or after an erase that only the codes
    "no free pages" and "new version found" trigger), the attach call has
    returned [ESP_OK], both message buffers exist and [mdns_init] has
    succeeded; the tasks created are TX and SUB for a sender build, RX and
    PUB for a receiver build. *)
Theorem app_main_starts_tasks_last
    (maxRetries : Z) (CONFIG_SENDER CONFIG_RECEIVER : bool)
    (p : platform) (s : started) :
  app_main maxRetries CONFIG_SENDER CONFIG_RECEIVER p = Done s ->
  ((nvs_flash_init_first p = ESP_OK /\ nvs_erased s = false)
   \/ ((nvs_flash_init_first p = ESP_ERR_NVS_NO_FREE_PAGES
        \/ nvs_flash_init_first p = ESP_ERR_NVS_NEW_VERSION_FOUND)
       /\ nvs_flash_erase_ret p = ESP_OK
       /\ nvs_flash_init_again p = ESP_OK
       /\ nvs_erased s = true))
  /\ (exists st,
        wifi_init_sta maxRetries (wifi_events_early p) (wifi_events p)
        = Some (ESP_OK, st))
  /\ trans_created p = true
  /\ recv_created p = true
  /\ mdns_init_ret p = ESP_OK
  /\ created_tasks s
     = (if CONFIG_SENDER
        then [mkTask "TX" 3072 5; mkTask "SUB" 4096 5] else [])
       ++ (if CONFIG_RECEIVER
           then [mkTask "RX" 3072 5; mkTask "PUB" 4096 5] else []).
Proof.
  unfold app_main, boot_bind, ESP_ERROR_CHECK, configASSERT.
  intros H.
  destruct ((nvs_flash_init_first p =? ESP_ERR_NVS_NO_FREE_PAGES)%Z
            || (nvs_flash_init_first p =? ESP_ERR_NVS_NEW_VERSION_FOUND)%Z)
    eqn:Ecode.
  - destruct (nvs_flash_erase_ret p =? ESP_OK)%Z eqn:Eerase; [|discriminate].
    cbn [fst snd] in H.
    destruct (nvs_flash_init_again p =? ESP_OK)%Z eqn:Eagain; [|discriminate].
    destruct (wifi_init_sta maxRetries (wifi_events_early p) (wifi_events p))
      as [[rc st]|]; [|discriminate].
    destruct (rc =? ESP_OK)%Z eqn:Erc; [|discriminate].
    destruct (trans_created p); [|discriminate].
    destruct (recv_created p); [|discriminate].
    destruct (mdns_init_ret p =? ESP_OK)%Z eqn:Emdns; [|discriminate].
    injection H as <-.
    apply Z.eqb_eq in Eerase, Eagain, Erc, Emdns. subst rc.
    apply orb_prop in Ecode.
    split; [right|].
    + split; [|auto].
      destruct Ecode as [E|E]; apply Z.eqb_eq in E; auto.
    + split; [exists st; reflexivity|]. auto.
  - cbn [fst snd] in H.
    destruct (nvs_flash_init_first p =? ESP_OK)%Z eqn:Efirst; [|discriminate].
    destruct (wifi_init_sta maxRetries (wifi_events_early p) (wifi_events p))
      as [[rc st]|]; [|discriminate].
    destruct (rc =? ESP_OK)%Z eqn:Erc; [|discriminate].
    destruct (trans_created p); [|discriminate].
    destruct (recv_created p); [|discriminate].
    destruct (mdns_init_ret p =? ESP_OK)%Z eqn:Emdns; [|discriminate].
    injection H as <-.
    apply Z.eqb_eq in Efirst, Erc, Emdns. subst rc.
    split; [left; auto|].
    split; [exists st; reflexivity|]. auto.
Qed.

Lemma app_main_starts_tasks_last_witness :
  created_tasks (mkStarted false [mkTask "RX" 3072 5; mkTask "PUB" 4096 5])
  = (if false then [mkTask "TX" 3072 5; mkTask "SUB" 4096 5] else [])
    ++ (if true then [mkTask "RX" 3072 5; mkTask "PUB" 4096 5] else []).
Proof.
  apply (app_main_starts_tasks_last 5 false true platform_ok
           (mkStarted false [mkTask "RX" 3072 5; mkTask "PUB" 4096 5])).
  reflexivity.
Defined.



End AppMainExtras.
